(** * xooer_geo: the audit front end and the scoring contract

    A shallow embedding of the TypeScript client of the GEO audit service
    (the create-audit form, the audit list, the audit detail and report
    pages, the score components and the API error helper), together with
    a model of the scoring and lifecycle contract the client consumes.

    Layout: the embedding comes first, one module per source file; the
    lemmas and theorems follow. *)

From Stdlib Require Import List Bool Arith NArith ZArith QArith Qminmax.
From Stdlib Require Import String Ascii Lia Lqa.
From Stdlib Require Import DecimalString DecimalN Permutation Sorted.
Import ListNotations.

Set Implicit Arguments.
Local Open Scope nat_scope.
Set Warnings "-register-all".

(* ================================================================== *)
(** * JavaScript values, as far as the client uses them *)
(* ================================================================== *)

Module JS.

(** A string is a sequence of UTF-16 code units; [length] counts them. *)
Definition code_unit := N.
Definition jsstring := list code_unit.

(** ASCII literals of the source, as code units. *)
Definition str (s : string) : jsstring :=
  map N_of_ascii (list_ascii_of_string s).

Fixpoint string_eqb (a b : jsstring) : bool :=
  match a, b with
  | [], [] => true
  | x :: a', y :: b' => N.eqb x y && string_eqb a' b'
  | _, _ => false
  end.

(** [Array.prototype.includes] on an array of strings. *)
Definition includes (l : list jsstring) (s : jsstring) : bool :=
  existsb (string_eqb s) l.

(** The WhiteSpace and LineTerminator code units [String.prototype.trim]
    strips. *)
Definition is_white_space (c : code_unit) : bool :=
  ((9 <=? c) && (c <=? 13) || (c =? 32) || (c =? 160) || (c =? 5760)
   || (8192 <=? c) && (c <=? 8202) || (c =? 8232) || (c =? 8233)
   || (c =? 8239) || (c =? 8287) || (c =? 12288) || (c =? 65279))%N.

Fixpoint trim_start (s : jsstring) : jsstring :=
  match s with
  | [] => []
  | c :: r => if is_white_space c then trim_start r else s
  end.

Definition trim_end (s : jsstring) : jsstring := rev (trim_start (rev s)).

Definition trim (s : jsstring) : jsstring := trim_end (trim_start s).

(** [s.split(sep)] for a separator of one code unit: always at least one
    piece, the empty string splits into one empty piece. *)
Fixpoint split (sep : code_unit) (s : jsstring) : list jsstring :=
  match s with
  | [] => [[]]
  | c :: r =>
      if N.eqb c sep then [] :: split sep r
      else match split sep r with
           | [] => [[c]]
           | p :: ps => (c :: p) :: ps
           end
  end.

(** Numbers: the finite values are rationals (every finite double is one);
    the three non-real values are kept apart.  Signed zero is not told apart. *)
Inductive number : Type :=
| Num (q : Q)
| PosInfinity
| NegInfinity
| NaN.

Definition Math_min (a b : number) : number :=
  match a, b with
  | NaN, _ | _, NaN => NaN
  | NegInfinity, _ | _, NegInfinity => NegInfinity
  | PosInfinity, x | x, PosInfinity => x
  | Num p, Num q => if Qle_bool p q then Num p else Num q
  end.

Definition Math_max (a b : number) : number :=
  match a, b with
  | NaN, _ | _, NaN => NaN
  | PosInfinity, _ | _, PosInfinity => PosInfinity
  | NegInfinity, x | x, NegInfinity => x
  | Num p, Num q => if Qle_bool p q then Num q else Num p
  end.


(** Equality of numbers as values (not of their representations). *)
Definition number_eq (a b : number) : Prop :=
  match a, b with
  | Num p, Num q => (p == q)%Q
  | PosInfinity, PosInfinity | NegInfinity, NegInfinity => True
  | _, _ => False
  end.

(** [lo <= a <= hi] for a finite [a]. *)
Definition number_between (lo hi : Q) (a : number) : Prop :=
  match a with
  | Num q => (lo <= q)%Q /\ (q <= hi)%Q
  | _ => False
  end.

(** Values.  An object carries its class (what [typeof] and [instanceof
    Error] look at) and its own properties. *)
Inductive object_class : Type := PlainObject | ErrorObject | FunctionObject.

Inductive value : Type :=
| VUndefined
| VNull
| VBool (b : bool)
| VNum (n : number)
| VStr (s : jsstring)
| VObj (cls : object_class) (props : list (jsstring * value)).

Fixpoint lookup (props : list (jsstring * value)) (k : jsstring) : option value :=
  match props with
  | [] => None
  | (k', v) :: rest => if string_eqb k' k then Some v else lookup rest k
  end.

(** ToBoolean. *)
Definition to_boolean (v : value) : bool :=
  match v with
  | VUndefined | VNull => false
  | VBool b => b
  | VNum (Num q) => negb (Qeq_bool q 0)
  | VNum NaN => false
  | VNum _ => true
  | VStr s => negb (Nat.eqb (List.length s) 0)
  | VObj _ _ => true
  end.

(** [a || b]. *)
Definition or_else (a b : value) : value := if to_boolean a then a else b.

Definition typeof (v : value) : jsstring :=
  match v with
  | VUndefined => str "undefined"
  | VNull => str "object"
  | VBool _ => str "boolean"
  | VNum _ => str "number"
  | VStr _ => str "string"
  | VObj FunctionObject _ => str "function"
  | VObj _ _ => str "object"
  end.

Definition is_null (v : value) : bool :=
  match v with VNull => true | _ => false end.

Definition is_nullish (v : value) : bool :=
  match v with VUndefined | VNull => true | _ => false end.

Definition instanceof_Error (v : value) : bool :=
  match v with VObj ErrorObject _ => true | _ => false end.

(** Abrupt completion: the only exception the modelled operations raise. *)
Inductive exn : Type := TypeError.

Inductive completion (A : Type) : Type :=
| Normal (a : A)
| Throw (e : exn).
Arguments Normal {A} a.
Arguments Throw {A} e.

Definition bind {A B : Type} (c : completion A) (k : A -> completion B)
  : completion B :=
  match c with
  | Normal a => k a
  | Throw e => Throw e
  end.

(** Properties found on the prototype of a class, for the keys the client
    reads: [Error.prototype.message] is the empty string. *)
Definition prototype_lookup (cls : object_class) (k : jsstring) : option value :=
  match cls with
  | ErrorObject => if string_eqb k (str "message") then Some (VStr []) else None
  | _ => None
  end.

(** [v.k]: a TypeError on [undefined] and [null]; [undefined] for a key the
    value does not have.  The client reads the keys response, data, error,
    detail, status and message only, and no primitive has one of them. *)
Definition get (v : value) (k : jsstring) : completion value :=
  match v with
  | VUndefined | VNull => Throw TypeError
  | VObj cls props =>
      match lookup props k with
      | Some x => Normal x
      | None =>
          match prototype_lookup cls k with
          | Some x => Normal x
          | None => Normal VUndefined
          end
      end
  | _ => Normal VUndefined
  end.

(** [v?.k]. *)
Definition optional_get (v : value) (k : jsstring) : completion value :=
  if is_nullish v then Normal VUndefined else get v k.

(** [k in v]: a TypeError when [v] is not an object. *)
Definition has_property (k : jsstring) (v : value) : completion bool :=
  match v with
  | VObj cls props =>
      Normal (match lookup props k with
              | Some _ => true
              | None => match prototype_lookup cls k with
                        | Some _ => true
                        | None => false
                        end
              end)
  | _ => Throw TypeError
  end.

End JS.

(* ================================================================== *)
(** * frontend/types/api.ts *)
(* ================================================================== *)

Module Api.
Import JS.

(** ['pending' | 'running' | 'completed' | 'failed']. *)
Inductive AuditStatus : Type := pending | running | completed | failed.

(** The string each status is on the wire and in comparisons. *)
Definition status_literal (s : AuditStatus) : jsstring :=
  match s with
  | pending => str "pending"
  | running => str "running"
  | completed => str "completed"
  | failed => str "failed"
  end.

Record AuditRequest : Type := {
  req_brand_name : jsstring;
  req_target_brand : jsstring;
  req_keywords : list jsstring;
  req_target_website : option jsstring;
  req_ground_truth : option (list (jsstring * value))
}.

Record ScoreBreakdown : Type := {
  som_score : number;
  som_percentage : number;
  citation_score : number;
  official_citations : number;
  authoritative_citations : number;
  ranking_score : number;
  average_ranking : option number;
  top3_count : number;
  accuracy_score : number;
  accuracy_percentage : number;
  hallucination_count : number
}.

Record Weights : Type := {
  som : number;
  citation : number;
  ranking : number;
  accuracy : number
}.

Record GeoScore : Type := {
  overall_score : number;
  breakdown : ScoreBreakdown;
  weights : Weights;
  confidence_interval : option (number * number);
  test_count : number;
  models_tested : list jsstring;
  keywords_tested : list jsstring;
  timestamp : jsstring
}.

(** [geo_score], [geo_score_detail], [completed_at] and [error] are
    optional: [None] stands for an absent, [undefined] or [null] field. *)
Record AuditResponse : Type := {
  audit_id : jsstring;
  brand_name : jsstring;
  target_brand : jsstring;
  keywords : list jsstring;
  status : AuditStatus;
  geo_score : option number;
  geo_score_detail : option GeoScore;
  started_at : jsstring;
  completed_at : option jsstring;
  error : option jsstring
}.

End Api.

(* ================================================================== *)
(** * frontend/lib/api/types.ts *)
(* ================================================================== *)

Module ApiTypes.
Import JS.

(** [ApiError]; [None] is a property the returned object does not have. *)
Record ApiError : Type := {
  message : value;
  status : option value;
  detail : option value
}.

(** The literal of the first branch, U+8BF7 U+6C42 U+5931 U+8D25
    (request failed). *)
Definition request_failed : jsstring := [35831; 27714; 22833; 36133]%N.

(** The literal of the last two branches, U+672A U+77E5 U+9519 U+8BEF
    (unknown error). *)
Definition unknown_error : jsstring := [26410; 30693; 38169; 35823]%N.

(** The first [if]: the guard, then the response branch when the response
    is truthy.  [None] means control falls through to the code below. *)
Definition response_branch (error : value) : completion (option ApiError) :=
  bind (if string_eqb (typeof error) (str "object") && negb (is_null error)
        then has_property (str "response") error
        else Normal false)
       (fun guard =>
  if guard then
    bind (get error (str "response")) (fun response =>
    if to_boolean response then
      bind (get response (str "data")) (fun data =>
      bind (optional_get data (str "error")) (fun err =>
      bind (get response (str "status")) (fun st =>
      bind (get response (str "data")) (fun data' =>
      bind (optional_get data' (str "detail")) (fun det =>
      Normal (Some {| message := or_else err (VStr request_failed);
                      status := Some st;
                      detail := Some det |}))))))
    else Normal None)
  else Normal None).

Definition extractApiError (error : value) : completion ApiError :=
  bind (response_branch error) (fun r =>
  match r with
  | Some e => Normal e
  | None =>
      if instanceof_Error error then
        bind (get error (str "message")) (fun m =>
        Normal {| message := or_else m (VStr unknown_error);
                  status := None;
                  detail := None |})
      else
        Normal {| message := VStr unknown_error;
                  status := None;
                  detail := None |}
  end).







End ApiTypes.

(* ================================================================== *)
(** * frontend/components/scoring/ScoreBreakdown.tsx *)
(* ================================================================== *)

Module Scoring.
Import JS.

(** [a || d] on numbers: [0] and [NaN] are falsy. *)
Definition number_or (a d : number) : number :=
  if to_boolean (VNum a) then a else d.

(** The weights the component falls back to. *)
Definition fallback_som : Q := 0.4.
Definition fallback_citation : Q := 0.3.
Definition fallback_ranking : Q := 0.2.
Definition fallback_accuracy : Q := 0.1.

Record Bar : Type := {
  bar_name : jsstring;
  bar_score : number;
  bar_weight : number;
  bar_color : jsstring
}.

(** [barData] of [ScoreBreakdown]. *)
Definition barData (geoScore : Api.GeoScore) : list Bar :=
  let breakdown := Api.breakdown geoScore in
  let weights := Api.weights geoScore in
  [ {| bar_name := str "SOM";
       bar_score := Api.som_score breakdown;
       bar_weight := number_or (Api.som weights) (Num fallback_som);
       bar_color := str "#3b82f6" |};
    {| bar_name := str "Citation";
       bar_score := Api.citation_score breakdown;
       bar_weight := number_or (Api.citation weights) (Num fallback_citation);
       bar_color := str "#10b981" |};
    {| bar_name := str "Ranking";
       bar_score := Api.ranking_score breakdown;
       bar_weight := number_or (Api.ranking weights) (Num fallback_ranking);
       bar_color := str "#f59e0b" |};
    {| bar_name := str "Accuracy";
       bar_score := Api.accuracy_score breakdown;
       bar_weight := number_or (Api.accuracy weights) (Num fallback_accuracy);
       bar_color := str "#ef4444" |} ].


(** [normalizedScore] of [GeoScoreOverview]:
    [Math.max(0, Math.min(100, score))]. *)
Definition normalizedScore (score : number) : number :=
  Math_max (Num 0) (Math_min (Num 100) score).


End Scoring.

(* ================================================================== *)
(** * The zod checks the form schema is built from *)
(* ================================================================== *)

Module Zod.
Import JS.

(** [z.string().min(n, msg)] and [.max(n, msg)]: a check compares the
    [length] of the input and raises an issue carrying [msg]. *)
Inductive string_check : Type :=
| Min (n : nat) (msg : jsstring)
| Max (n : nat) (msg : jsstring).

Definition run_check (c : string_check) (input : jsstring) : list jsstring :=
  match c with
  | Min n msg => if List.length input <? n then [msg] else []
  | Max n msg => if n <? List.length input then [msg] else []
  end.

(** The issues of a string schema: every check runs, in order. *)
Definition string_issues (checks : list string_check) (input : jsstring)
  : list jsstring :=
  flat_map (fun c => run_check c input) checks.

(** [z.array(element).min(lo, m1).max(hi, m2)]. *)
Record array_schema : Type := {
  element : list string_check;
  min_length : nat * jsstring;
  max_length : nat * jsstring
}.

Definition array_issues (a : array_schema) (input : list jsstring)
  : list jsstring :=
  (if List.length input <? fst (min_length a) then [snd (min_length a)] else [])
  ++ (if fst (max_length a) <? List.length input then [snd (max_length a)] else [])
  ++ flat_map (string_issues (element a)) input.

(** [safeParse(...).success]. *)
Definition success (issues : list jsstring) : bool :=
  match issues with
  | [] => true
  | _ :: _ => false
  end.

End Zod.

(* ================================================================== *)
(** * The create-audit page (src/unnamed/part_002) *)
(* ================================================================== *)

Module NewAuditPage.
Import JS.

(** U+54C1 U+724C U+540D U+79F0 U+4E0D U+80FD U+4E3A U+7A7A *)
Definition msg_brand_name_empty : jsstring :=
  [21697; 29260; 21517; 31216; 19981; 33021; 20026; 31354]%N.

(** U+54C1 U+724C U+540D U+79F0 U+4E0D U+80FD U+8D85 U+8FC7 100 U+4E2A
    U+5B57 U+7B26 *)
Definition msg_brand_name_long : jsstring :=
  [21697; 29260; 21517; 31216; 19981; 33021; 36229; 36807; 49; 48; 48;
   20010; 23383; 31526]%N.

(** U+5173 U+952E U+8BCD U+4E0D U+80FD U+4E3A U+7A7A *)
Definition msg_keyword_empty : jsstring :=
  [20851; 38190; 35789; 19981; 33021; 20026; 31354]%N.

(** U+81F3 U+5C11 U+9700 U+8981 U+4E00 U+4E2A U+6838 U+5FC3 U+4EA7 U+54C1 /
    U+670D U+52A1 U+5173 U+952E U+8BCD *)
Definition msg_core_keywords_none : jsstring :=
  [33267; 23569; 38656; 35201; 19968; 20010; 26680; 24515; 20135; 21697; 47;
   26381; 21153; 20851; 38190; 35789]%N.

(** U+6700 U+591A U+53EA U+80FD U+8F93 U+5165 3 U+4E2A U+5173 U+952E U+8BCD *)
Definition msg_core_keywords_many : jsstring :=
  [26368; 22810; 21482; 33021; 36755; 20837; 51; 20010; 20851; 38190; 35789]%N.

(** The fields of [auditFormSchema] the modelled code validates. *)
Definition brand_name_schema : list Zod.string_check :=
  [Zod.Min 1 msg_brand_name_empty; Zod.Max 100 msg_brand_name_long].

Definition keywords_schema : list Zod.string_check :=
  [Zod.Min 1 msg_keyword_empty].

Definition core_product_keywords_schema : Zod.array_schema :=
  {| Zod.element := [Zod.Min 1 msg_keyword_empty];
     Zod.min_length := (1, msg_core_keywords_none);
     Zod.max_length := (3, msg_core_keywords_many) |}.

Definition brand_name_accepted (brand_name : jsstring) : bool :=
  Zod.success (Zod.string_issues brand_name_schema brand_name).

Definition keywords_accepted (keywords : jsstring) : bool :=
  Zod.success (Zod.string_issues keywords_schema keywords).

Definition core_product_keywords_accepted (l : list jsstring) : bool :=
  Zod.success (Zod.array_issues core_product_keywords_schema l).

(** [AuditFormData], the fields [onSubmit] and the tag input read. *)
Record AuditFormData : Type := {
  brand_name : jsstring;
  keywords : jsstring;
  company_website : jsstring;
  core_product_keywords : list jsstring
}.


(** The comma, U+002C. *)
Definition comma : code_unit := 44%N.

(** [keywordArray] of [onSubmit]. *)
Definition keywordArray (data : AuditFormData) : list jsstring :=
  filter (fun k => 0 <? List.length k) (map trim (split comma (keywords data))).

(** [requestData] of [onSubmit]: what [createAudit] is called with. *)
Definition requestData (data : AuditFormData) : Api.AuditRequest :=
  {| Api.req_brand_name := trim (brand_name data);
     Api.req_target_brand := trim (brand_name data);
     Api.req_keywords :=
       if 0 <? List.length (keywordArray data) then keywordArray data
       else [trim (brand_name data)];
     Api.req_target_website := Some (trim (company_website data));
     Api.req_ground_truth := None |}.

(** The tag input: the watched array and the text of the input box. *)
Record TagInput : Type := {
  coreProductKeywords : list jsstring;
  coreProductKeywordInput : jsstring
}.

(** [defaultValues] and the initial [useState]. *)
Definition initial : TagInput :=
  {| coreProductKeywords := []; coreProductKeywordInput := [] |}.

(** [array.slice(0, -1)]. *)
Definition slice_0_minus_1 (l : list jsstring) : list jsstring := removelast l.

(** [array.filter((_, i) => i !== index)], the callback's index starting
    at [i]. *)
Fixpoint filter_index_from (i index : nat) (l : list jsstring) : list jsstring :=
  match l with
  | [] => []
  | x :: r =>
      if Nat.eqb i index then filter_index_from (S i) index r
      else x :: filter_index_from (S i) index r
  end.

Definition handleCoreProductKeywordKeyDown (key : jsstring) (st : TagInput)
  : TagInput :=
  if string_eqb key (str "Enter") || string_eqb key (str ",") then
    let value := trim (coreProductKeywordInput st) in
    if to_boolean (VStr value) && negb (includes (coreProductKeywords st) value) then
      if List.length (coreProductKeywords st) <? 3 then
        {| coreProductKeywords := coreProductKeywords st ++ [value];
           coreProductKeywordInput := [] |}
      else st
    else st
  else if string_eqb key (str "Backspace")
          && string_eqb (coreProductKeywordInput st) []
          && (0 <? List.length (coreProductKeywords st)) then
    {| coreProductKeywords := slice_0_minus_1 (coreProductKeywords st);
       coreProductKeywordInput := coreProductKeywordInput st |}
  else st.

Definition removeCoreProductKeyword (index : nat) (st : TagInput) : TagInput :=
  {| coreProductKeywords := filter_index_from 0 index (coreProductKeywords st);
     coreProductKeywordInput := coreProductKeywordInput st |}.

(** What the user can do to the tag input: press a key in the box, change
    its text, click the remove button of the tag at [index]. *)
Inductive event : Type :=
| KeyDown (key : jsstring)
| Change (text : jsstring)
| RemoveClick (index : nat).

Definition step (st : TagInput) (e : event) : TagInput :=
  match e with
  | KeyDown key => handleCoreProductKeywordKeyDown key st
  | Change text =>
      {| coreProductKeywords := coreProductKeywords st;
         coreProductKeywordInput := text |}
  | RemoveClick index => removeCoreProductKeyword index st
  end.

Definition run (events : list event) : TagInput := fold_left step events initial.

End NewAuditPage.

(* ================================================================== *)
(** * frontend/app/audits/page.tsx *)
(* ================================================================== *)

Module AuditsPage.
Import JS.

(** [type AuditStatus = 'pending' | 'running' | 'completed' | 'failed' | 'all']
    of the list page: the value of the status filter. *)
Inductive AuditStatus : Type :=
| f_pending | f_running | f_completed | f_failed | f_all.

Definition filter_literal (f : AuditStatus) : jsstring :=
  match f with
  | f_pending => str "pending"
  | f_running => str "running"
  | f_completed => str "completed"
  | f_failed => str "failed"
  | f_all => str "all"
  end.

(** [filteredAudits]. *)
Definition filteredAudits (audits : list Api.AuditResponse)
    (statusFilter : AuditStatus) : list Api.AuditResponse :=
  if string_eqb (filter_literal statusFilter) (str "all") then audits
  else filter (fun audit =>
                 string_eqb (Api.status_literal (Api.status audit))
                            (filter_literal statusFilter))
              audits.

(** [filteredTotal]. *)
Definition filteredTotal (audits : list Api.AuditResponse) (total : nat)
    (statusFilter : AuditStatus) : nat :=
  if string_eqb (filter_literal statusFilter) (str "all") then total
  else List.length (filteredAudits audits statusFilter).

End AuditsPage.

(* ================================================================== *)
(** * Polling, as both pages that follow an audit do it

    A page keeps a [polling] flag (React state) and the handle of its
    timer (a ref); the handle is modelled by the period of the timer in
    milliseconds, [None] when no timer is set.  A change of [polling]
    re-runs the polling effect: first the clean-up the previous run left,
    then the body. *)
(* ================================================================== *)

Module Polling.
Import JS.

Record state : Type := {
  polling : bool;
  pollingIntervalRef : option N
}.

Definition mounted : state :=
  {| polling := false; pollingIntervalRef := None |}.

(** What a call of [fetchAudit] comes back with. *)
Inductive fetched : Type :=
| Fetched (data : Api.AuditResponse)
| FetchFailed.

(** [data.status === 'running' || data.status === 'pending']. *)
Definition in_progress (data : Api.AuditResponse) : bool :=
  string_eqb (Api.status_literal (Api.status data)) (str "running")
  || string_eqb (Api.status_literal (Api.status data)) (str "pending").

(** The interval the service recommends, in milliseconds. *)
Definition recommended (ms : N) : Prop := (5000 <= ms /\ ms <= 10000)%N.

End Polling.

(* ================================================================== *)
(** * frontend/app/audits/[id]/page.tsx *)
(* ================================================================== *)

Module AuditDetailPage.
Import JS Polling.

(** The body of the polling effect: stop when not polling (or without an
    id), else start a timer of 7000 ms. *)
Definition polling_effect (auditId : jsstring) (polling : bool)
    (ref : option N) : option N :=
  if negb polling || negb (to_boolean (VStr auditId)) then None
  else Some 7000%N.

(** The clean-up of the previous run: only the run that started a timer
    returned one. *)
Definition cleanup (auditId : jsstring) (previous_polling : bool)
    (ref : option N) : option N :=
  if negb previous_polling || negb (to_boolean (VStr auditId)) then ref
  else None.

(** [setPolling(p)] and the render that follows. *)
Definition setPolling (auditId : jsstring) (p : bool) (st : state) : state :=
  if Bool.eqb p (polling st) then st
  else {| polling := p;
          pollingIntervalRef :=
            polling_effect auditId p
              (cleanup auditId (polling st) (pollingIntervalRef st)) |}.

(** One call of [fetchAudit], from its outcome. *)
Definition fetchAudit (auditId : jsstring) (r : fetched) (st : state) : state :=
  if negb (to_boolean (VStr auditId)) then st
  else match r with
       | Fetched data => setPolling auditId (in_progress data) st
       | FetchFailed => st
       end.

Definition run (auditId : jsstring) (rs : list fetched) : state :=
  fold_left (fun st r => fetchAudit auditId r st) rs mounted.

(** The score block of the page. *)
Inductive score_block : Type :=
| ScoreOverview (score : number) (detail : option Api.GeoScore)
| NoScoreWarning
| NoBlock.

Definition render_score (audit : Api.AuditResponse) : score_block :=
  if string_eqb (Api.status_literal (Api.status audit)) (str "completed") then
    match Api.geo_score audit with
    | Some score => ScoreOverview score (Api.geo_score_detail audit)
    | None => NoScoreWarning
    end
  else NoBlock.

(** The error block: shown when [audit.error] is truthy. *)
Definition render_error (audit : Api.AuditResponse) : option jsstring :=
  match Api.error audit with
  | Some e => if to_boolean (VStr e) then Some e else None
  | None => None
  end.

End AuditDetailPage.

(* ================================================================== *)
(** * The report page (src/unnamed/part_003) *)
(* ================================================================== *)

Module BrandReportPage.
Import JS Polling.

(** The body of the polling effect: start a timer of 3000 ms when polling
    and none is set. *)
Definition polling_effect (polling : bool) (ref : option N) : option N :=
  match ref with
  | None => if polling then Some 3000%N else None
  | Some t => Some t
  end.

(** The clean-up, returned by every run. *)
Definition cleanup (ref : option N) : option N := None.

Definition setPolling (p : bool) (st : state) : state :=
  if Bool.eqb p (polling st) then st
  else {| polling := p;
          pollingIntervalRef :=
            polling_effect p (cleanup (pollingIntervalRef st)) |}.

(** [clearInterval(pollingIntervalRef.current)] inside [fetchAudit]. *)
Definition clear (st : state) : state :=
  {| polling := polling st; pollingIntervalRef := None |}.

Definition fetchAudit (auditId : jsstring) (r : fetched) (st : state) : state :=
  if negb (to_boolean (VStr auditId)) then st
  else match r with
       | Fetched data =>
           if string_eqb (Api.status_literal (Api.status data)) (str "completed")
           then setPolling false (clear st)
           else if in_progress data then setPolling true st
           else if string_eqb (Api.status_literal (Api.status data)) (str "failed")
           then setPolling false (clear st)
           else st
       | FetchFailed => st
       end.

Definition run (auditId : jsstring) (rs : list fetched) : state :=
  fold_left (fun st r => fetchAudit auditId r st) rs mounted.

End BrandReportPage.

(* ================================================================== *)
(** * The Geo Scorer (spec, section 4.3)

    Modelled from the spec: the scorer runs in the audit service, whose
    source is not among the files of the repository; only the client that
    displays its result is.  Scores are exact rationals.  What the spec
    leaves open (the citation, ranking and accuracy curves, the interval
    estimator, the supporting averages) is a parameter of the model. *)
(* ================================================================== *)

Module GeoScorer.
Import JS.

(** Modelled from the spec: the data model of section 3 (probe specs and
    results, the breakdown, the score); the service that declares these
    types is not among the files. *)
Inductive Sentiment : Type := s_positive | s_neutral | s_negative.

Inductive ExtractionStatus : Type := e_ok | e_repaired | e_discarded.

Record ProbeSpec : Type := {
  keyword : jsstring;
  provider : jsstring;
  sampling_variant : nat
}.

Record BrandMention : Type := {
  mention_brand : jsstring;
  mentioned : bool;
  ranking_position : option nat;
  sentiment : Sentiment;
  is_target_brand : bool
}.

Record ProbeResult : Type := {
  spec_reference : ProbeSpec;
  brand_mentions : list BrandMention;
  total_mentions : nat;
  has_target_brand : bool;
  target_brand_ranking : option nat;
  target_brand_sentiment : Sentiment;
  official_citation_count : nat;
  authoritative_citation_count : nat;
  extraction_status : ExtractionStatus
}.

Record ScoreBreakdown : Type := {
  som_score : Q;
  citation_score : Q;
  ranking_score : Q;
  accuracy_score : Q;
  mention_percentage : Q;
  official_citations : nat;
  authoritative_citations : nat;
  average_ranking : Q;
  hallucination_count : nat
}.

Record Weights : Type := {
  som : Q;
  citation : Q;
  ranking : Q;
  accuracy : Q
}.

Inductive Reason : Type := insufficient_data.

Record GeoScore : Type := {
  overall_score : Q;
  breakdown : ScoreBreakdown;
  weights : Weights;
  confidence_interval : Q * Q;
  test_count : nat;
  providers_tested : list jsstring;
  keywords_tested : list jsstring;
  reason : option Reason
}.

(** A call returns a value or raises. *)
Inductive outcome (A : Type) : Type :=
| Returned (a : A)
| Raised (message : jsstring).
Arguments Returned {A} a.
Arguments Raised {A} message.

Definition and_then {A B : Type} (o : outcome A) (k : A -> outcome B)
  : outcome B :=
  match o with
  | Returned a => k a
  | Raised m => Raised m
  end.

(** Modelled from the spec: the default weights of the contract,
    [{som:0.4, citation:0.3, ranking:0.2, accuracy:0.1}]. *)
Definition default_weights : Weights :=
  {| som := 0.4; citation := 0.3; ranking := 0.2; accuracy := 0.1 |}.

Definition weights_sum (w : Weights) : Q :=
  (som w + citation w + ranking w + accuracy w)%Q.

(** Clamping to [[0,100]]. *)
Definition clamp (x : Q) : Q := Qmax 0 (Qmin 100 x).

(** Division raises on a zero divisor. *)
Definition divide (a b : Q) : outcome Q :=
  if Qeq_bool b 0 then Raised (str "division by zero")
  else Returned (a / b)%Q.

Definition of_nat (n : nat) : Q := inject_Z (Z.of_nat n).

Definition mentioned_count (results : list ProbeResult) : nat :=
  List.length (filter has_target_brand results).

(** Modelled from the spec: step 2, [mentioned_count / total_results * 100]. *)
Definition share_of_model (results : list ProbeResult) : outcome Q :=
  and_then (divide (of_nat (mentioned_count results))
                   (of_nat (List.length results)))
           (fun share => Returned (share * 100)%Q).

Definition sum_of (f : ProbeResult -> nat) (results : list ProbeResult) : nat :=
  fold_right (fun r acc => f r + acc) 0 results.

Definition distinct (l : list jsstring) : list jsstring :=
  nodup (list_eq_dec N.eq_dec) l.

Definition weighted_sum (w : Weights) (s c r a : Q) : Q :=
  (som w * s + citation w * c + ranking w * r + accuracy w * a)%Q.

(** Modelled from the spec: step 1, the result of the zero-data guard. *)
Definition zero_score (w : Weights) : GeoScore :=
  {| overall_score := 0;
     breakdown :=
       {| som_score := 0; citation_score := 0; ranking_score := 0;
          accuracy_score := 0; mention_percentage := 0;
          official_citations := 0; authoritative_citations := 0;
          average_ranking := 0; hallucination_count := 0 |};
     weights := w;
     confidence_interval := (0, 0)%Q;
     test_count := 0;
     providers_tested := [];
     keywords_tested := [];
     reason := Some insufficient_data |}.

Section Scorer.

(** The parts the spec describes by their properties only. *)
Variable citation_curve : nat -> nat -> Q.
Variable ranking_curve : list ProbeResult -> Q.
Variable accuracy_curve : list ProbeResult -> Q.
Variable average_ranking_of : list ProbeResult -> Q.
Variable hallucinations_of : list ProbeResult -> nat.
Variable proportion_interval : nat -> nat -> Q * Q.

(** Modelled from the spec: step 3; zero citations yield 0, anything else
    is normalised to [[0,100]]. *)
Definition citation_of (official authoritative : nat) : Q :=
  if Nat.eqb (official + authoritative) 0 then 0%Q
  else clamp (citation_curve official authoritative).

(** Modelled from the spec: step 4; no mention at all yields 0. *)
Definition ranking_of (results : list ProbeResult) : Q :=
  if Nat.eqb (mentioned_count results) 0 then 0%Q
  else clamp (ranking_curve results).

(** Modelled from the spec: step 5, clamped as the failure semantics ask. *)
Definition accuracy_of (results : list ProbeResult) : Q :=
  clamp (accuracy_curve results).

(** Modelled from the spec: [score(results, weights)] of the Geo Scorer,
    steps 1 to 7 of section 4.3; the scorer of the service is not among
    the files. *)
Definition score (results : list ProbeResult) (w : Weights) : outcome GeoScore :=
  match results with
  | [] => Returned (zero_score w)
  | _ :: _ =>
      and_then (share_of_model results) (fun s =>
      let official := sum_of official_citation_count results in
      let authoritative := sum_of authoritative_citation_count results in
      let c := citation_of official authoritative in
      let r := ranking_of results in
      let a := accuracy_of results in
      Returned
        {| overall_score := clamp (weighted_sum w s c r a);
           breakdown :=
             {| som_score := s; citation_score := c; ranking_score := r;
                accuracy_score := a; mention_percentage := s;
                official_citations := official;
                authoritative_citations := authoritative;
                average_ranking := average_ranking_of results;
                hallucination_count := hallucinations_of results |};
           weights := w;
           confidence_interval :=
             proportion_interval (mentioned_count results) (List.length results);
           test_count := List.length results;
           providers_tested :=
             distinct (map (fun p => provider (spec_reference p)) results);
           keywords_tested :=
             distinct (map (fun p => keyword (spec_reference p)) results);
           reason := None |})
  end.

End Scorer.

End GeoScorer.

(* ================================================================== *)
(** * The audit state machine (spec, section 4.4)

    Modelled from the spec: [create], [run] and [get] belong to the audit
    service, whose source is not among the files of the repository.  The
    dispatcher and the extractor are parameters; the store is the list of
    the snapshots persisted so far, the latest first. *)
(* ================================================================== *)

Module AuditPipeline.
Import JS GeoScorer.

(** Modelled from the spec: the probe response and the audit record of
    section 3. *)
Record ProbeResponse : Type := {
  response_spec : ProbeSpec;
  response_text : jsstring;
  response_success : bool;
  failure_reason : option jsstring;
  latency : nat
}.

Record AuditRecord : Type := {
  id : jsstring;
  brand_name : jsstring;
  target_brand : jsstring;
  keywords : list jsstring;
  status : Api.AuditStatus;
  geo_score : option GeoScore;
  error : option jsstring
}.

Definition with_status (r : AuditRecord) (s : Api.AuditStatus) : AuditRecord :=
  {| id := id r; brand_name := brand_name r; target_brand := target_brand r;
     keywords := keywords r; status := s;
     geo_score := geo_score r; error := error r |}.

(** Modelled from the spec: the terminal write of a successful run. *)
Definition complete (r : AuditRecord) (g : GeoScore) : AuditRecord :=
  {| id := id r; brand_name := brand_name r; target_brand := target_brand r;
     keywords := keywords r; status := Api.completed;
     geo_score := Some g; error := None |}.

(** Modelled from the spec: the terminal write of a run that raised. *)
Definition fail (r : AuditRecord) (message : jsstring) : AuditRecord :=
  {| id := id r; brand_name := brand_name r; target_brand := target_brand r;
     keywords := keywords r; status := Api.failed;
     geo_score := None; error := Some message |}.

Inductive ValidationError : Type :=
| BrandNameEmpty
| KeywordCount
| WebsiteInvalid
| GroundTruthNotFlat.

Definition flat (o : list (jsstring * value)) : bool :=
  forallb (fun kv => match snd kv with VObj _ _ => false | _ => true end) o.

Section Pipeline.

Variable valid_url : jsstring -> bool.
Variable providers : list jsstring.
Variable samples : nat.
Variable dispatch : list ProbeSpec -> outcome (list ProbeResponse).
Variable extract : jsstring -> ProbeResponse -> outcome ProbeResult.
Variable citation_curve : nat -> nat -> Q.
Variable ranking_curve : list ProbeResult -> Q.
Variable accuracy_curve : list ProbeResult -> Q.
Variable average_ranking_of : list ProbeResult -> Q.
Variable hallucinations_of : list ProbeResult -> nat.
Variable proportion_interval : nat -> nat -> Q * Q.
Variable configured_weights : Weights.

(** Modelled from the spec: [create(request)], the validation and the
    pending record. *)
Definition create (new_id : jsstring) (request : Api.AuditRequest)
  : ValidationError + AuditRecord :=
  if Nat.eqb (List.length (Api.req_brand_name request)) 0 then inl BrandNameEmpty
  else if (List.length (Api.req_keywords request) <? 1)
          || (20 <? List.length (Api.req_keywords request)) then inl KeywordCount
  else if match Api.req_target_website request with
          | Some url => negb (valid_url url)
          | None => false
          end then inl WebsiteInvalid
  else if match Api.req_ground_truth request with
          | Some truth => negb (flat truth)
          | None => false
          end then inl GroundTruthNotFlat
  else inr {| id := new_id;
              brand_name := Api.req_brand_name request;
              target_brand := Api.req_target_brand request;
              keywords := Api.req_keywords request;
              status := Api.pending;
              geo_score := None;
              error := None |}.

(** The test matrix: keyword x provider x sampling variant. *)
Definition test_matrix (r : AuditRecord) : list ProbeSpec :=
  flat_map (fun k =>
    flat_map (fun p =>
      map (fun v => {| keyword := k; provider := p; sampling_variant := v |})
          (seq 0 samples))
      providers)
    (keywords r).

Fixpoint extract_all (target : jsstring) (responses : list ProbeResponse)
  : outcome (list ProbeResult) :=
  match responses with
  | [] => Returned []
  | x :: rest =>
      and_then (extract target x) (fun p =>
      and_then (extract_all target rest) (fun ps => Returned (p :: ps)))
  end.

Definition usable (p : ProbeResult) : bool :=
  match extraction_status p with
  | e_discarded => false
  | _ => true
  end.

(** Modelled from the spec: [run(auditId)] of the audit state machine
    (section 4.4), whose driver is not among the files.  It writes the
    running record, then the record again after each stage, then the
    terminal record; a stage that raises ends the run with the failed
    record. *)
Definition run (store : list AuditRecord) (r : AuditRecord) : list AuditRecord :=
  let running := with_status r Api.running in
  let store := running :: store in
  match dispatch (test_matrix running) with
  | Raised m => fail running m :: store
  | Returned responses =>
      let store := running :: store in
      match extract_all (target_brand running)
                        (filter response_success responses) with
      | Raised m => fail running m :: store
      | Returned results =>
          let store := running :: store in
          match score citation_curve ranking_curve accuracy_curve
                      average_ranking_of hallucinations_of proportion_interval
                      (filter usable results) configured_weights with
          | Raised m => fail running m :: store
          | Returned g => complete running g :: store
          end
      end
  end.

(** Modelled from the spec: the snapshots a poller of one audit can be
    given by [get], from ingestion on. *)
Definition snapshots (new_id : jsstring) (request : Api.AuditRequest)
  : list AuditRecord :=
  match create new_id request with
  | inl _ => []
  | inr r => run [r] r
  end.

(** What the spec asks of every record a caller receives. *)
Definition well_formed (r : AuditRecord) : Prop :=
  (status r = Api.completed -> exists g, geo_score r = Some g /\ error r = None)
  /\ (status r = Api.failed -> exists m, error r = Some m /\ geo_score r = None)
  /\ (status r = Api.pending \/ status r = Api.running ->
      geo_score r = None /\ error r = None).

End Pipeline.

End AuditPipeline.

(* ================================================================== *)
(** * Sample inputs *)
(* ================================================================== *)

Module Samples.
Import JS.

Definition audit (name : string) (s : Api.AuditStatus)
    (score : option number) : Api.AuditResponse :=
  {| Api.audit_id := str name;
     Api.brand_name := str "Asana";
     Api.target_brand := str "Asana";
     Api.keywords := [str "project management"];
     Api.status := s;
     Api.geo_score := score;
     Api.geo_score_detail := None;
     Api.started_at := str "2024-01-01T00:00:00Z";
     Api.completed_at := None;
     Api.error := None |}.

Definition three_audits : list Api.AuditResponse :=
  [ audit "audit_001" Api.running None;
    audit "audit_002" Api.completed (Some (Num 71.5));
    audit "audit_003" Api.failed None ].

(** A form whose keywords box holds 21 comma-separated entries. *)
Definition form_21_keywords : NewAuditPage.AuditFormData :=
  {| NewAuditPage.brand_name := str "Asana";
     NewAuditPage.keywords :=
       str "k1,k2,k3,k4,k5,k6,k7,k8,k9,k10,k11,k12,k13,k14,k15,k16,k17,k18,k19,k20,k21";
     NewAuditPage.company_website := str "https://asana.com";
     NewAuditPage.core_product_keywords := [str "tasks"] |}.




(** Typing [ tasks ], Enter, [tasks], Enter, [boards], a comma. *)
Definition typing : list NewAuditPage.event :=
  [ NewAuditPage.Change (str " tasks ");
    NewAuditPage.KeyDown (str "Enter");
    NewAuditPage.Change (str "tasks");
    NewAuditPage.KeyDown (str "Enter");
    NewAuditPage.Change (str "boards");
    NewAuditPage.KeyDown (str ",") ].



(** An Axios error with message [m] whose response is
    [{ status: 404, data: { error: "not found", detail: "no such audit" } }]. *)
Definition axios_404 : value :=
  VObj ErrorObject
    [(str "message", VStr (str "Request failed with status code 404"));
     (str "response",
      VObj PlainObject
        [(str "status", VNum (Num 404));
         (str "data",
          VObj PlainObject
            [(str "error", VStr (str "not found"));
             (str "detail", VStr (str "no such audit"))])])].

(** [new Error("boom")] *)
Definition error_boom : value :=
  VObj ErrorObject [(str "message", VStr (str "boom"))].

End Samples.

(* ================================================================== *)
(** * More of JavaScript: arithmetic, sorting, searching, printing *)
(* ================================================================== *)

Module JSLib.
Import JS.

(** [a - b] on numbers. *)
Definition number_sub (a b : number) : number :=
  match a, b with
  | NaN, _ | _, NaN => NaN
  | PosInfinity, PosInfinity | NegInfinity, NegInfinity => NaN
  | PosInfinity, _ | _, NegInfinity => PosInfinity
  | NegInfinity, _ | _, PosInfinity => NegInfinity
  | Num p, Num q => Num (p - q)
  end.

(** [a > b] on numbers. *)
Definition number_gtb (a b : number) : bool :=
  match a, b with
  | NaN, _ | _, NaN => false
  | PosInfinity, PosInfinity => false
  | PosInfinity, _ => true
  | NegInfinity, _ => false
  | Num _, PosInfinity => false
  | Num _, NegInfinity => true
  | Num p, Num q => negb (Qle_bool p q)
  end.

(** [a === b] on numbers: [NaN] equals nothing. *)
Definition number_strict_eq (a b : number) : bool :=
  match a, b with
  | Num p, Num q => Qeq_bool p q
  | PosInfinity, PosInfinity | NegInfinity, NegInfinity => true
  | _, _ => false
  end.

(** [v === n] for a number [n]. *)
Definition strict_eq_number (v : value) (n : number) : bool :=
  match v with
  | VNum m => number_strict_eq m n
  | _ => false
  end.

(** [Array.prototype.sort(compare)].  The language asks for a stable sort;
    with a consistent comparator the sorted, stable arrangement is unique,
    and insertion from the right computes it.  A comparator result that is
    [NaN] counts as 0, as SortCompare reads it. *)
Section Sort.
Variable A : Type.
Variable compare : A -> A -> number.

Fixpoint insert (x : A) (sorted : list A) : list A :=
  match sorted with
  | [] => [x]
  | y :: rest =>
      if number_gtb (compare x y) (Num 0) then y :: insert x rest
      else x :: y :: rest
  end.

Definition sort (l : list A) : list A := fold_right insert [] l.

End Sort.

(** [s.startsWith(prefix)]. *)
Fixpoint starts_with (prefix s : jsstring) : bool :=
  match prefix, s with
  | [], _ => true
  | _ :: _, [] => false
  | a :: prefix', b :: s' => N.eqb a b && starts_with prefix' s'
  end.

(** [s.includes(needle)]. *)
Fixpoint string_includes (s needle : jsstring) : bool :=
  starts_with needle s
  || match s with
     | [] => false
     | _ :: rest => string_includes rest needle
     end.

(** [s.slice(-n)]: the last [n] code units, all of [s] when it is shorter. *)
Definition slice_last (n : nat) (s : jsstring) : jsstring :=
  skipn (List.length s - n) s.

(** The decimal digits of a natural number, as [String(n)] prints an
    integer below 10^21. *)
Definition number_to_string (n : N) : jsstring :=
  str (NilZero.string_of_uint (N.to_uint n)).

(** [++n] on a counter held in a double: exact up to 2^53, where adding 1
    rounds back to 2^53. *)
Definition increment (n : N) : N :=
  if (n <? 9007199254740992)%N then (n + 1)%N else n.

End JSLib.

(* ================================================================== *)
(** * frontend/lib/api/types.ts, [isApiErrorStatus] *)
(* ================================================================== *)

Module ApiStatus.
Import JS JSLib.


End ApiStatus.

(* ================================================================== *)
(** * The create-audit page (src/unnamed/part_002), [onSubmit] *)
(* ================================================================== *)

Module Submit.
Import JS.

(** How the promise of [createAudit] settles: with the body of the
    response ([None] when it is [null] or [undefined]) or with whatever
    was thrown. *)
Inductive settled : Type :=
| Resolved (audit : option Api.AuditResponse)
| Rejected (err : value).

Record state : Type := {
  loading : bool;
  error : option value;
  success : bool
}.


(** U+521B U+5EFA U+68C0 U+6D4B U+5931 U+8D25 U+FF0C U+8BF7 U+7A0D U+540E
    U+91CD U+8BD5 *)
Definition msg_create_failed : jsstring :=
  [21019; 24314; 26816; 27979; 22833; 36133; 65292; 35831; 31245; 21518;
   37325; 35797]%N.

(** [new Error(message)]. *)
Definition new_Error (message : jsstring) : value :=
  VObj ErrorObject [(str "message", VStr message)].

(** [err?.response?.data?.detail || err?.message || '...']. *)
Definition errorMessage (err : value) : completion value :=
  bind (optional_get err (str "response")) (fun response =>
  bind (optional_get response (str "data")) (fun data =>
  bind (optional_get data (str "detail")) (fun detail =>
  if to_boolean detail then Normal detail
  else
    bind (optional_get err (str "message")) (fun message =>
    Normal (or_else message (VStr msg_create_failed)))))).



End Submit.

(* ================================================================== *)
(** * frontend/app/audits/page.tsx, paging *)
(* ================================================================== *)

Module AuditsPaging.
Import JS AuditsPage.

Record state : Type := {
  audits : list Api.AuditResponse;
  total : nat;
  skip : Z;
  statusFilter : AuditStatus
}.

(** [useState(20)]. *)
Definition limit : Z := 20.

Definition initial : state :=
  {| audits := []; total := 0; skip := 0; statusFilter := f_all |}.

Definition shown (st : state) : list Api.AuditResponse :=
  filteredAudits (audits st) (statusFilter st).

(** The paging bar is part of the page only under these two tests (and
    when the page is neither loading nor in error, which the model leaves
    out: it may only let more clicks through). *)
Definition paging_bar_rendered (st : state) : bool :=
  negb (Nat.eqb (List.length (shown st)) 0)
  && (0 <? filteredTotal (audits st) (total st) (statusFilter st)).

(** [disabled={skip === 0}]. *)
Definition previous_disabled (st : state) : bool := Z.eqb (skip st) 0.

(** [disabled={skip + limit >= filteredAudits.length}]. *)
Definition next_disabled (st : state) : bool :=
  Z.geb (skip st + limit) (Z.of_nat (List.length (shown st))).

Inductive event : Type :=
| Loaded (audits : list Api.AuditResponse) (total : nat)
| SetFilter (f : AuditStatus)
| ClickPrevious
| ClickNext.

Definition same_filter (f g : AuditStatus) : bool :=
  string_eqb (filter_literal f) (filter_literal g).

Definition step (st : state) (e : event) : state :=
  match e with
  | Loaded a t =>
      {| audits := a; total := t; skip := skip st;
         statusFilter := statusFilter st |}
  | SetFilter f =>
      if same_filter f (statusFilter st) then st
      else {| audits := audits st; total := total st; skip := 0;
              statusFilter := f |}
  | ClickPrevious =>
      if paging_bar_rendered st && negb (previous_disabled st) then
        {| audits := audits st; total := total st;
           skip := Z.max 0 (skip st - limit);
           statusFilter := statusFilter st |}
      else st
  | ClickNext =>
      if paging_bar_rendered st && negb (next_disabled st) then
        {| audits := audits st; total := total st;
           skip := skip st + limit;
           statusFilter := statusFilter st |}
      else st
  end.

Definition run (events : list event) : state := fold_left step events initial.

(** The server returned at most [limit] audits each time. *)
Definition honours_limit (e : event) : Prop :=
  match e with
  | Loaded a _ => (Z.of_nat (List.length a) <= limit)%Z
  | _ => True
  end.

End AuditsPaging.

(* ================================================================== *)
(** * frontend/components/reports/CompetitorComparison.tsx *)
(* ================================================================== *)

Module CompetitorComparison.
Import JS JSLib.

Inductive SortField : Type :=
| mentionRate | firstMentionRate | firstChoiceRate
| positiveMentionRate | negativeMentionRate.

Inductive SortOrder : Type := asc | desc.

Definition field_literal (f : SortField) : jsstring :=
  match f with
  | mentionRate => str "mentionRate"
  | firstMentionRate => str "firstMentionRate"
  | firstChoiceRate => str "firstChoiceRate"
  | positiveMentionRate => str "positiveMentionRate"
  | negativeMentionRate => str "negativeMentionRate"
  end.

Record CompetitorData : Type := {
  name : jsstring;
  mention_rate : number;
  first_mention_rate : number;
  first_choice_rate : number;
  positive_mention_rate : number;
  negative_mention_rate : number;
  isCurrentBrand : option bool
}.

(** [competitor[sortField]]. *)
Definition field (f : SortField) (c : CompetitorData) : number :=
  match f with
  | mentionRate => mention_rate c
  | firstMentionRate => first_mention_rate c
  | firstChoiceRate => first_choice_rate c
  | positiveMentionRate => positive_mention_rate c
  | negativeMentionRate => negative_mention_rate c
  end.

(** The two pieces of state, [null] as [None]. *)
Record sorting : Type := {
  sortField : option SortField;
  sortOrder : option SortOrder
}.

Definition unsorted : sorting := {| sortField := None; sortOrder := None |}.

Definition handleSort (f : SortField) (st : sorting) : sorting :=
  if match sortField st with
     | Some g => string_eqb (field_literal g) (field_literal f)
     | None => false
     end
  then
    match sortOrder st with
    | Some desc => {| sortField := None; sortOrder := None |}
    | Some asc => {| sortField := sortField st; sortOrder := Some desc |}
    | None => {| sortField := sortField st; sortOrder := Some asc |}
    end
  else {| sortField := Some f; sortOrder := Some desc |}.

Definition clicks (fs : list SortField) : sorting :=
  fold_left (fun st f => handleSort f st) fs unsorted.

(** The comparator handed to [sort]. *)
Definition comparator (f : SortField) (o : SortOrder)
    (a b : CompetitorData) : number :=
  match o with
  | asc => number_sub (field f a) (field f b)
  | desc => number_sub (field f b) (field f a)
  end.

Definition sortedCompetitors (competitors : list CompetitorData)
    (st : sorting) : list CompetitorData :=
  match sortField st, sortOrder st with
  | Some f, Some o => sort (comparator f o) competitors
  | _, _ => competitors
  end.

(** The field of a competitor holds a real number. *)
Definition real (f : SortField) (c : CompetitorData) : Prop :=
  exists q, field f c = Num q.

(** The real value of a field, 0 where it holds none. *)
Definition real_value (f : SortField) (c : CompetitorData) : Q :=
  match field f c with
  | Num q => q
  | _ => 0%Q
  end.

End CompetitorComparison.

(* ================================================================== *)
(** * frontend/components/strategy *)
(* ================================================================== *)

Module Strategy.
Import JS JSLib.

Inductive Priority : Type := high | medium | low.

Inductive Category : Type := som | citation | ranking | accuracy | general.

Inductive Difficulty : Type := easy | medium' | hard.

(** [StrategyRecommendation] of frontend/types/api.ts. *)
Record StrategyRecommendation : Type := {
  category : Category;
  priority : Priority;
  title : jsstring;
  description : jsstring;
  action_items : list jsstring;
  expected_impact : jsstring;
  implementation_difficulty : Difficulty;
  estimated_time : option jsstring;
  code_examples : option (list (jsstring * jsstring));
  resources : option (list jsstring)
}.

(** [priorityOrder = { high: 0, medium: 1, low: 2 }]. *)
Definition priorityOrder (p : Priority) : Q :=
  match p with
  | high => 0
  | medium => 1
  | low => 2
  end.

(** [sortedRecommendations] of [StrategyRecommendationsList]. *)
Definition sortedRecommendations (recommendations : list StrategyRecommendation)
  : list StrategyRecommendation :=
  sort (fun a b => number_sub (Num (priorityOrder (priority a)))
                              (Num (priorityOrder (priority b))))
       recommendations.






End Strategy.

(* ================================================================== *)
(** * frontend/hooks/useToast.ts and frontend/components/ui/Toast.tsx *)
(* ================================================================== *)

Module Toasts.
Import JS JSLib.

Inductive ToastType : Type := t_success | t_error | t_info | t_warning.

Record Toast : Type := {
  id : jsstring;
  message : jsstring;
  type : ToastType;
  duration : option number
}.

(** The module-level counter [toastId] and the [toasts] of the hook. *)
Record store : Type := {
  toastId : N;
  toasts : list Toast
}.

Definition empty : store := {| toastId := 0; toasts := [] |}.

(** The id of the toast numbered [n]. *)
Definition toast_id (n : N) : jsstring := str "toast-" ++ number_to_string n.

Definition showToast (message : jsstring) (type : ToastType)
    (duration : option number) (st : store) : store :=
  let n := increment (toastId st) in
  {| toastId := n;
     toasts := toasts st ++ [ {| id := toast_id n; message := message;
                                 type := type; duration := duration |} ] |}.

Definition removeToast (i : jsstring) (st : store) : store :=
  {| toastId := toastId st;
     toasts := filter (fun t => negb (string_eqb (id t) i)) (toasts st) |}.

Definition success (message : jsstring) (duration : option number) :=
  showToast message t_success duration.

Definition info (message : jsstring) (duration : option number) :=
  showToast message t_info duration.

Inductive action : Type :=
| Show (message : jsstring) (type : ToastType) (duration : option number)
| Remove (i : jsstring).

Definition act (st : store) (a : action) : store :=
  match a with
  | Show m t d => showToast m t d st
  | Remove i => removeToast i st
  end.

Definition run (actions : list action) : store := fold_left act actions empty.

Definition shows (actions : list action) : nat :=
  List.length (filter (fun a => match a with Show _ _ _ => true | _ => false end)
                      actions).

(** Every toast on screen got its id from a counter value already used,
    and no two share one. *)
Definition numbered (st : store) : Prop :=
  Forall (fun t => exists k, (1 <= k <= toastId st)%N /\ id t = toast_id k)
         (toasts st)
  /\ NoDup (map id (toasts st)).

(** [toast.duration || 5000] of [ToastComponent]. *)
Definition effective_duration (t : Toast) : number :=
  match duration t with
  | Some d => Scoring.number_or d (Num 5000)
  | None => Num 5000
  end.

(** The delay of the timer that closes the toast, [None] when the effect
    sets none. *)
Definition close_timer (t : Toast) : option number :=
  if number_gtb (effective_duration t) (Num 0)
  then Some (effective_duration t) else None.

End Toasts.

(* ================================================================== *)
(** * frontend/app/audits/[id]/page.tsx, the whole page state *)
(* ================================================================== *)

Module AuditDetailView.
Import JS JSLib Polling.

Record view : Type := {
  audit : option Api.AuditResponse;
  loading : bool;
  error : option jsstring;
  poll : Polling.state;
  previousStatusRef : option jsstring;
  toast_store : Toasts.store
}.

(** The initial [useState] and [useRef] values. *)
Definition initial : view :=
  {| audit := None; loading := true; error := None; poll := mounted;
     previousStatusRef := None; toast_store := Toasts.empty |}.

(** U+83B7 U+53D6 U+68C0 U+6D4B U+8BE6 U+60C5 U+5931 U+8D25 U+FF0C U+8BF7
    U+7A0D U+540E U+91CD U+8BD5 *)
Definition msg_fetch_failed : jsstring :=
  [33719; 21462; 26816; 27979; 35814; 24773; 22833; 36133; 65292; 35831;
   31245; 21518; 37325; 35797]%N.

(** U+7F51 U+7EDC, what the error screen looks for. *)
Definition network_word : jsstring := [32593; 32476]%N.

(** [statusMessages]. *)
Definition statusMessages : list (jsstring * jsstring) :=
  [ (str "pending", [26816; 27979; 20219; 21153; 24050; 24320; 22987]%N);
    (str "running", [26816; 27979; 27491; 22312; 25191; 34892; 20013]%N);
    (str "completed", [26816; 27979; 24050; 23436; 25104; 65281]%N);
    (str "failed", [26816; 27979; 25191; 34892; 22833; 36133]%N) ].

Fixpoint message_of (table : list (jsstring * jsstring)) (key : jsstring)
  : option jsstring :=
  match table with
  | [] => None
  | (k, m) :: rest => if string_eqb k key then Some m else message_of rest key
  end.

(** [statusMessages[status] || `...${status}`], the prefix being U+72B6
    U+6001 U+5DF2 U+53D8 U+66F4 U+4E3A U+FF1A. *)
Definition status_message (status : jsstring) : jsstring :=
  match message_of statusMessages status with
  | Some m => if to_boolean (VStr m) then m
              else [29366; 24577; 24050; 21464; 26356; 20026; 65306]%N ++ status
  | None => [29366; 24577; 24050; 21464; 26356; 20026; 65306]%N ++ status
  end.

(** The toast of a status change: none on the first fetch or when the
    status is the one seen before. *)
Definition notify (previous : option jsstring) (status : jsstring)
    (st : Toasts.store) : Toasts.store :=
  match previous with
  | Some p =>
      if to_boolean (VStr p) && negb (string_eqb p status) then
        if string_eqb status (str "completed") then
          Toasts.success (status_message status) (Some (Num 6000)) st
        else if string_eqb status (str "failed") then
          Toasts.info (status_message status) (Some (Num 6000)) st
        else Toasts.info (status_message status) (Some (Num 4000)) st
      else st
  | None => st
  end.

(** [fetchAudit(silent)], from its outcome. *)
Definition fetchAudit (auditId : jsstring) (silent : bool) (r : fetched)
    (v : view) : view :=
  if negb (to_boolean (VStr auditId)) then v
  else match r with
       | Fetched data =>
           let status := Api.status_literal (Api.status data) in
           {| audit := Some data;
              loading := if silent then loading v else false;
              error := None;
              poll := AuditDetailPage.setPolling auditId (in_progress data) (poll v);
              previousStatusRef := Some status;
              toast_store := notify (previousStatusRef v) status (toast_store v) |}
       | FetchFailed =>
           {| audit := audit v;
              loading := if silent then loading v else false;
              error := if silent then None else Some msg_fetch_failed;
              poll := poll v;
              previousStatusRef := previousStatusRef v;
              toast_store := toast_store v |}
       end.

(** What happens to the page: the load effect ([setAudit(null)], then
    [fetchAudit()]), the retry button of the error screen ([handleRetry]:
    [setError(null)], then [fetchAudit()] when there is an id), a tick of the
    polling timer (there is one only while the timer is set), the closing
    of a toast. *)
Inductive event : Type :=
| Load (r : fetched)
| Retry (r : fetched)
| Tick (r : fetched)
| CloseToast (i : jsstring).

Definition step (auditId : jsstring) (v : view) (e : event) : view :=
  match e with
  | Load r =>
      if to_boolean (VStr auditId) then
        fetchAudit auditId false r
          {| audit := None; loading := loading v; error := error v;
             poll := poll v; previousStatusRef := previousStatusRef v;
             toast_store := toast_store v |}
      else v
  | Retry r =>
      let v' := {| audit := audit v; loading := loading v; error := None;
                   poll := poll v; previousStatusRef := previousStatusRef v;
                   toast_store := toast_store v |} in
      if to_boolean (VStr auditId) then fetchAudit auditId false r v' else v'
  | Tick r =>
      match pollingIntervalRef (poll v) with
      | Some _ => fetchAudit auditId true r v
      | None => v
      end
  | CloseToast i =>
      {| audit := audit v; loading := loading v; error := error v;
         poll := poll v; previousStatusRef := previousStatusRef v;
         toast_store := Toasts.removeToast i (toast_store v) |}
  end.

Definition run (auditId : jsstring) (events : list event) : view :=
  fold_left (step auditId) events initial.

Inductive screen : Type :=
| Skeleton
| NetworkErrorBlock
| AuditNotFoundBlock
| Detail (audit : Api.AuditResponse).

(** The three [return]s of the component. *)
Definition render (v : view) : screen :=
  if loading v then Skeleton
  else
    let failed :=
      match error v with
      | Some e => to_boolean (VStr e)
      | None => false
      end in
    match failed, audit v with
    | false, Some a => Detail a
    | _, _ =>
        match error v with
        | Some e =>
            if to_boolean (VStr e) && string_includes e network_word
            then NetworkErrorBlock else AuditNotFoundBlock
        | None => AuditNotFoundBlock
        end
    end.

(** The toast [fetchAudit] raises for the status [s]. *)
Definition announcement (s : Api.AuditStatus) (n : N) : Toasts.Toast :=
  {| Toasts.id := Toasts.toast_id n;
     Toasts.message := status_message (Api.status_literal s);
     Toasts.type :=
       match s with
       | Api.completed => Toasts.t_success
       | _ => Toasts.t_info
       end;
     Toasts.duration :=
       Some (match s with
             | Api.completed | Api.failed => Num 6000
             | _ => Num 4000
             end) |}.

(** The toasts on screen are announcements. *)
Definition announcements (v : view) : Prop :=
  Forall (fun t => exists s n, t = announcement s n)
         (Toasts.toasts (toast_store v)).

(** With one status throughout, the page remembers that status or none
    and shows no toast. *)
Definition quiet (s : Api.AuditStatus) (v : view) : Prop :=
  (previousStatusRef v = None
   \/ previousStatusRef v = Some (Api.status_literal s))
  /\ Toasts.toasts (toast_store v) = [].

(** Every audit the history fetched had the status [s]. *)
Definition fetched_only (s : Api.AuditStatus) (e : event) : Prop :=
  match e with
  | Load (Fetched data) | Retry (Fetched data) | Tick (Fetched data) =>
      Api.status data = s
  | _ => True
  end.

End AuditDetailView.

(* ================================================================== *)
(** * The report page (src/unnamed/part_003), the whole page state *)
(* ================================================================== *)

Module ReportView.
Import JS JSLib.

(** How [getAudit] settles. *)
Inductive settled : Type :=
| Got (data : Api.AuditResponse)
| Threw (err : value).

(** [reportData] and [competitorData] are set together, from generated
    figures; only whether they are set matters here. *)
Record view : Type := {
  audit : option Api.AuditResponse;
  loading : bool;
  error : option jsstring;
  reportData : bool;
  poll : Polling.state
}.

Definition initial : view :=
  {| audit := None; loading := true; error := None; reportData := false;
     poll := Polling.mounted |}.

(** [err?.response?.status]. *)
Definition response_status (err : value) : completion value :=
  bind (optional_get err (str "response")) (fun response =>
  optional_get response (str "status")).

(** The error the [catch] block sets. *)
Definition classify (err : value) : completion jsstring :=
  bind (response_status err) (fun st =>
  if strict_eq_number st (Num 404) then Normal (str "not_found")
  else
    bind (response_status err) (fun st' =>
    if strict_eq_number st' (Num 0) then Normal (str "network")
    else
      bind (optional_get err (str "response")) (fun response =>
      if negb (to_boolean response) then Normal (str "network")
      else Normal (str "unknown")))).

Definition as_fetched (r : settled) : Polling.fetched :=
  match r with
  | Got data => Polling.Fetched data
  | Threw _ => Polling.FetchFailed
  end.

(** [fetchAudit(silent)], from how the request settles. *)
Definition fetchAudit (auditId : jsstring) (silent : bool) (r : settled)
    (v : view) : completion view :=
  if negb (to_boolean (VStr auditId)) then Normal v
  else
    match r with
    | Got data =>
        Normal
          {| audit := Some data;
             loading := if silent then loading v else false;
             error := None;
             reportData :=
               if string_eqb (Api.status_literal (Api.status data)) (str "completed")
               then true
               else if Polling.in_progress data then true
               else reportData v;
             poll := BrandReportPage.fetchAudit auditId (as_fetched r) (poll v) |}
    | Threw err =>
        if silent then
          Normal {| audit := audit v; loading := loading v; error := None;
                    reportData := reportData v; poll := poll v |}
        else
          bind (classify err) (fun code =>
          Normal {| audit := audit v; loading := false; error := Some code;
                    reportData := reportData v; poll := poll v |})
    end.

(** The load effect and the reload button call [fetchAudit()]; the timer,
    while it is set, calls [fetchAudit(true)]. *)
Inductive event : Type :=
| Load (r : settled)
| Tick (r : settled).

Definition step (auditId : jsstring) (v : view) (e : event) : completion view :=
  match e with
  | Load r => fetchAudit auditId false r v
  | Tick r =>
      match Polling.pollingIntervalRef (poll v) with
      | Some _ => fetchAudit auditId true r v
      | None => Normal v
      end
  end.

Fixpoint run_from (auditId : jsstring) (v : view) (events : list event)
  : completion view :=
  match events with
  | [] => Normal v
  | e :: rest => bind (step auditId v e) (fun v' => run_from auditId v' rest)
  end.

Definition run (auditId : jsstring) (events : list event) : completion view :=
  run_from auditId initial events.

Inductive screen : Type :=
| Skeleton
| AuditNotFound
| NetworkError
| LoadFailure
| AuditFailed
| Generating
| Report.

(** The chain of [return]s of the component. *)
Definition render (v : view) : screen :=
  if loading v then Skeleton
  else
    match error v with
    | Some e =>
        if string_eqb e (str "not_found") then AuditNotFound
        else if string_eqb e (str "network") then NetworkError
        else if to_boolean (VStr e) then LoadFailure
        else match audit v with
             | None => LoadFailure
             | Some a =>
                 if string_eqb (Api.status_literal (Api.status a)) (str "failed")
                 then AuditFailed
                 else if reportData v then Report else Generating
             end
    | None =>
        match audit v with
        | None => LoadFailure
        | Some a =>
            if string_eqb (Api.status_literal (Api.status a)) (str "failed")
            then AuditFailed
            else if reportData v then Report else Generating
        end
    end.

(** What holds of the page after every event: an audit it holds has
    failed or comes with report figures, and its error is none or one of
    the three codes. *)
Definition settled_view (v : view) : Prop :=
  (forall a, audit v = Some a ->
             Api.status a = Api.failed \/ reportData v = true)
  /\ (error v = None
      \/ error v = Some (str "not_found")
      \/ error v = Some (str "network")
      \/ error v = Some (str "unknown")).

End ReportView.

(* ================================================================== *)
(** * The environment configuration (src/unnamed/part_007) *)
(* ================================================================== *)

Module EnvConfig.
Import JS JSLib.

(** [process.env], the variables the file reads; [None] is an unset one. *)
Record env : Type := {
  NEXT_PUBLIC_API_URL : option jsstring;
  NEXT_PUBLIC_API_KEY : option jsstring;
  NEXT_PUBLIC_APP_NAME : option jsstring;
  NEXT_PUBLIC_DEBUG : option jsstring;
  NODE_ENV : option jsstring
}.

(** [v || d] for a variable. *)
Definition or_default (v : option jsstring) (d : jsstring) : jsstring :=
  match v with
  | Some s => if to_boolean (VStr s) then s else d
  | None => d
  end.

Definition default_url : jsstring := str "http://localhost:8000".

Record api_config : Type := { baseURL : jsstring; apiKey : jsstring }.

Definition API_CONFIG (e : env) : api_config :=
  {| baseURL := or_default (NEXT_PUBLIC_API_URL e) default_url;
     apiKey := or_default (NEXT_PUBLIC_API_KEY e) [] |}.

Definition isDevelopment (e : env) : bool :=
  match NODE_ENV e with
  | Some s => string_eqb s (str "development")
  | None => false
  end.

(** NEXT_PUBLIC_API_URL, a space, U+672A U+914D U+7F6E *)
Definition msg_not_configured : jsstring :=
  str "NEXT_PUBLIC_API_URL " ++ [26410; 37197; 32622]%N.

(** NEXT_PUBLIC_API_URL, a space, U+683C U+5F0F U+65E0 U+6548 U+FF08 U+5FC5
    U+987B U+662F U+6709 U+6548 U+7684, a space, URL, U+FF09 *)
Definition msg_bad_format : jsstring :=
  str "NEXT_PUBLIC_API_URL "
  ++ [26684; 24335; 26080; 25928; 65288; 24517; 39035; 26159; 26377; 25928;
      30340]%N
  ++ str " URL" ++ [65289]%N.

Record validation : Type := { valid : bool; errors : list jsstring }.

Section Validate.

(** Whether [new URL(s)] returns rather than throws: the parser is the
    platform's. *)
Variable url_parses : jsstring -> bool.

Definition validateEnvConfig (e : env) : validation :=
  let errors :=
    if negb (to_boolean (VStr (baseURL (API_CONFIG e)))) then [msg_not_configured]
    else if url_parses (baseURL (API_CONFIG e)) then []
    else [msg_bad_format] in
  {| valid := Nat.eqb (List.length errors) 0; errors := errors |}.

End Validate.

Record logged : Type := {
  API_URL : jsstring;
  API_KEY : jsstring;
  logged_NODE_ENV : option jsstring
}.

(** U+672A U+914D U+7F6E *)
Definition key_not_configured : jsstring := [26410; 37197; 32622]%N.

(** [logConfig]: what it prints, [None] when it prints nothing. *)
Definition logConfig (e : env) : option logged :=
  if isDevelopment e then
    Some {| API_URL := baseURL (API_CONFIG e);
            API_KEY :=
              if to_boolean (VStr (apiKey (API_CONFIG e)))
              then str "***" ++ slice_last 4 (apiKey (API_CONFIG e))
              else key_not_configured;
            logged_NODE_ENV := NODE_ENV e |}
  else None.

End EnvConfig.

(* ================================================================== *)
(** * frontend/components/scoring/ScoreBreakdown.tsx, [GeoScoreOverview] *)
(* ================================================================== *)

Module GeoScoreOverview.
Import JS JSLib.






End GeoScoreOverview.

(* ================================================================== *)
(** * Sample sessions *)
(* ================================================================== *)

Module Scenarios.
Import JS.

(** The list page: three audits arrive, the user asks for the next page,
    filters by running, asks again. *)
Definition browsing : list AuditsPaging.event :=
  [ AuditsPaging.Loaded Samples.three_audits 3;
    AuditsPaging.ClickNext;
    AuditsPaging.SetFilter AuditsPage.f_running;
    AuditsPaging.ClickNext ].

(** Three rows of the comparison table, with the mention rates of the
    generated figures. *)
Definition row (n : string) (mention : Q) : CompetitorComparison.CompetitorData :=
  {| CompetitorComparison.name := str n;
     CompetitorComparison.mention_rate := Num mention;
     CompetitorComparison.first_mention_rate := Num 0;
     CompetitorComparison.first_choice_rate := Num 0;
     CompetitorComparison.positive_mention_rate := Num 100;
     CompetitorComparison.negative_mention_rate := Num 0;
     CompetitorComparison.isCurrentBrand := None |}.

Definition rows : list CompetitorComparison.CompetitorData :=
  [ row "Asana" 2.56; row "Trello" 15.38; row "Jira" 2.56 ].

(** Two toasts are shown and the first is closed. *)
Definition two_toasts : list Toasts.action :=
  [ Toasts.Show (str "saved") Toasts.t_info None;
    Toasts.Show (str "done") Toasts.t_success (Some (Num 6000));
    Toasts.Remove (Toasts.toast_id 1) ].

(** The detail page of an audit that is running at the load and at the
    two polls that follow. *)
Definition still_running : list AuditDetailView.event :=
  [ AuditDetailView.Load
      (Polling.Fetched (Samples.audit "audit_001" Api.running None));
    AuditDetailView.Tick
      (Polling.Fetched (Samples.audit "audit_001" Api.running None));
    AuditDetailView.Tick
      (Polling.Fetched (Samples.audit "audit_001" Api.running None)) ].

(** No variable is set. *)
Definition env_unset : EnvConfig.env :=
  {| EnvConfig.NEXT_PUBLIC_API_URL := None;
     EnvConfig.NEXT_PUBLIC_API_KEY := None;
     EnvConfig.NEXT_PUBLIC_APP_NAME := None;
     EnvConfig.NEXT_PUBLIC_DEBUG := None;
     EnvConfig.NODE_ENV := None |}.

(** A form whose brand name and keywords box hold one space each. *)
Definition form_blank : NewAuditPage.AuditFormData :=
  {| NewAuditPage.brand_name := str " ";
     NewAuditPage.keywords := str " ";
     NewAuditPage.company_website := str "https://asana.com";
     NewAuditPage.core_product_keywords := [str "tasks"] |}.

End Scenarios.

(* ================================================================== *)
(** * Properties *)
(* ================================================================== *)

(** ** Strings *)

Lemma string_eqb_eq (a b : JS.jsstring) : JS.string_eqb a b = true <-> a = b.
Proof.
  revert b; induction a as [|x a IH]; intros [|y b]; simpl;
    try (split; [discriminate | discriminate]); try tauto.
  rewrite andb_true_iff, N.eqb_eq, IH.
  split; [intros [-> ->]; reflexivity | intros H; inversion H; auto].
Qed.

Lemma string_eqb_refl (a : JS.jsstring) : JS.string_eqb a a = true.
Proof. apply string_eqb_eq; reflexivity. Qed.

Lemma includes_In (l : list JS.jsstring) (s : JS.jsstring) :
  JS.includes l s = true <-> In s l.
Proof.
  unfold JS.includes. rewrite existsb_exists. split.
  - intros (x & Hx & E). apply string_eqb_eq in E. subst; assumption.
  - intros H. exists s. split; [assumption | apply string_eqb_refl].
Qed.

(** ** C4: the score shown by [GeoScoreOverview] *)

Lemma Qle_bool_false (p q : Q) : Qle_bool p q = false -> (q < p)%Q.
Proof.
  intros H. apply Qnot_le_lt. intros L. apply Qle_bool_iff in L. congruence.
Qed.

(** C4.  For every real score, [normalizedScore] lies in [[0,100]], and a
    score that already lies in [[0,100]] is shown unchanged. *)
Theorem normalizedScore_clamps (score : Q) :
  JS.number_between 0 100 (Scoring.normalizedScore (JS.Num score))
  /\ ((0 <= score)%Q /\ (score <= 100)%Q ->
      JS.number_eq (Scoring.normalizedScore (JS.Num score)) (JS.Num score)).
Proof.
  unfold Scoring.normalizedScore, JS.Math_min.
  destruct (Qle_bool 100 score) eqn:Hi.
  - change (JS.Math_max (JS.Num 0) (JS.Num 100)) with (JS.Num 100).
    apply Qle_bool_iff in Hi. split.
    + split; [discriminate | apply Qle_refl].
    + intros [_ Hle]. apply Qle_antisym; assumption.
  - apply Qle_bool_false in Hi. unfold JS.Math_max.
    destruct (Qle_bool 0 score) eqn:Lo.
    + apply Qle_bool_iff in Lo. split.
      * split; [assumption | apply Qlt_le_weak; assumption].
      * intros _. apply Qeq_refl.
    + apply Qle_bool_false in Lo. split.
      * split; [apply Qle_refl | discriminate].
      * intros [Hge _]. exfalso. apply (Qlt_irrefl score).
        apply Qlt_le_trans with (y := 0%Q); assumption.
Qed.

(** The clamp at work on both sides and inside the range. *)
Example normalizedScore_examples :
  Scoring.normalizedScore (JS.Num 137) = JS.Num 100
  /\ Scoring.normalizedScore (JS.Num (-5)) = JS.Num 0
  /\ Scoring.normalizedScore (JS.Num 66.7) = JS.Num 66.7
  /\ Scoring.normalizedScore JS.PosInfinity = JS.Num 100
  /\ Scoring.normalizedScore JS.NegInfinity = JS.Num 0
  /\ Scoring.normalizedScore JS.NaN = JS.NaN.
Proof. repeat split; reflexivity. Qed.

Lemma normalizedScore_clamps_witness :
  JS.number_eq (Scoring.normalizedScore (JS.Num 42.5)) (JS.Num 42.5).
Proof.
  apply (proj2 (normalizedScore_clamps 42.5)).
  split; unfold Qle; simpl; lia.
Defined.

(** ** C6: the brand name check of the form *)

(** C6.  The form accepts a brand name exactly when its length is between
    1 and 100: the empty name and every name longer than 100 are rejected,
    every length from 1 to 100 is accepted. *)
Theorem brand_name_accepted_iff (brand_name : JS.jsstring) :
  NewAuditPage.brand_name_accepted brand_name = true
  <-> 1 <= List.length brand_name /\ List.length brand_name <= 100.
Proof.
  unfold NewAuditPage.brand_name_accepted, NewAuditPage.brand_name_schema,
    Zod.string_issues.
  cbn [flat_map Zod.run_check].
  destruct (Nat.ltb_spec (List.length brand_name) 1) as [Lo|Lo];
    destruct (Nat.ltb_spec 100 (List.length brand_name)) as [Hi|Hi];
    cbn [app Zod.success]; split; try discriminate; try lia; reflexivity.
Qed.

Example brand_name_issues :
  Zod.string_issues NewAuditPage.brand_name_schema []
    = [NewAuditPage.msg_brand_name_empty]
  /\ Zod.string_issues NewAuditPage.brand_name_schema (repeat 65%N 101)
    = [NewAuditPage.msg_brand_name_long]
  /\ Zod.string_issues NewAuditPage.brand_name_schema (repeat 65%N 100) = []
  /\ Zod.string_issues NewAuditPage.brand_name_schema (JS.str "A") = [].
Proof. repeat split; reflexivity. Qed.

(** ** C9: the status filter of the audit list *)

Lemma filter_literal_all (f : AuditsPage.AuditStatus) :
  JS.string_eqb (AuditsPage.filter_literal f) (JS.str "all") = true
  <-> f = AuditsPage.f_all.
Proof. destruct f; cbv; split; congruence. Qed.

(** C9.  With a filter other than ['all'] the filtered list holds exactly
    the audits of the input whose status is the filter; with ['all'] it is
    the input list. *)
Theorem filteredAudits_sound_complete
    (audits : list Api.AuditResponse) (statusFilter : AuditsPage.AuditStatus) :
  (statusFilter <> AuditsPage.f_all ->
   forall audit,
     In audit (AuditsPage.filteredAudits audits statusFilter)
     <-> In audit audits
         /\ Api.status_literal (Api.status audit)
            = AuditsPage.filter_literal statusFilter)
  /\ AuditsPage.filteredAudits audits AuditsPage.f_all = audits.
Proof.
  split; [| reflexivity].
  intros Hf audit. unfold AuditsPage.filteredAudits.
  destruct (JS.string_eqb (AuditsPage.filter_literal statusFilter) (JS.str "all"))
    eqn:E.
  - apply filter_literal_all in E. contradiction.
  - rewrite filter_In, string_eqb_eq. reflexivity.
Qed.

Lemma filteredAudits_sound_complete_witness :
  In (Samples.audit "audit_002" Api.completed (Some (JS.Num 71.5)))
     (AuditsPage.filteredAudits Samples.three_audits AuditsPage.f_completed).
Proof.
  apply (proj1 (filteredAudits_sound_complete Samples.three_audits
                  AuditsPage.f_completed)).
  - discriminate.
  - split; [right; left; reflexivity | reflexivity].
Defined.

(** The filter keeps the order of the list and drops nothing else. *)
Example filteredAudits_example :
  AuditsPage.filteredAudits Samples.three_audits AuditsPage.f_completed
    = [Samples.audit "audit_002" Api.completed (Some (JS.Num 71.5))]
  /\ AuditsPage.filteredAudits Samples.three_audits AuditsPage.f_pending = []
  /\ AuditsPage.filteredTotal Samples.three_audits 40 AuditsPage.f_all = 40
  /\ AuditsPage.filteredTotal Samples.three_audits 40 AuditsPage.f_failed = 1.
Proof. repeat split; reflexivity. Qed.

(** ** C10: the tag input of the core product keywords *)

Section TagInput.
Import NewAuditPage.

Lemma filter_index_from_In (i index : nat) (l : list JS.jsstring) (x : JS.jsstring) :
  In x (filter_index_from i index l) -> In x l.
Proof.
  revert i; induction l as [|y l IH]; intros i; simpl; [tauto|].
  destruct (Nat.eqb i index); simpl; intros H.
  - right; eapply IH; eassumption.
  - destruct H as [H|H]; [left; assumption | right; eapply IH; eassumption].
Qed.

Lemma filter_index_from_NoDup (i index : nat) (l : list JS.jsstring) :
  NoDup l -> NoDup (filter_index_from i index l).
Proof.
  intros H; revert i; induction H as [|y l Hy Hl IH]; intros i; simpl.
  - constructor.
  - destruct (Nat.eqb i index); [apply IH|].
    constructor; [| apply IH].
    intros Hin; apply Hy; eapply filter_index_from_In; eassumption.
Qed.

Lemma filter_index_from_length (i index : nat) (l : list JS.jsstring) :
  List.length (filter_index_from i index l) <= List.length l.
Proof.
  revert i; induction l as [|y l IH]; intros i; simpl; [lia|].
  destruct (Nat.eqb i index); simpl; specialize (IH (S i)); lia.
Qed.

Lemma filter_index_from_beyond (i index : nat) (l : list JS.jsstring) :
  index < i -> filter_index_from i index l = l.
Proof.
  revert i; induction l as [|y l IH]; intros i Hi; simpl; [reflexivity|].
  destruct (Nat.eqb_spec i index) as [E|_]; [lia|].
  rewrite IH by lia; reflexivity.
Qed.

(** The filter of [removeCoreProductKeyword] drops the entry at [index]
    and nothing else. *)
Lemma filter_index_from_spec (i index : nat) (l : list JS.jsstring) :
  i <= index ->
  filter_index_from i index l
    = firstn (index - i) l ++ skipn (S (index - i)) l.
Proof.
  revert i; induction l as [|y l IH]; intros i Hi; simpl.
  - rewrite firstn_nil; reflexivity.
  - destruct (Nat.eqb_spec i index) as [E|N].
    + subst i. rewrite Nat.sub_diag. simpl.
      apply filter_index_from_beyond; lia.
    + rewrite IH by lia.
      replace (index - i) with (S (index - S i)) by lia.
      reflexivity.
Qed.

Lemma removelast_In (l : list JS.jsstring) (x : JS.jsstring) :
  In x (removelast l) -> In x l.
Proof.
  induction l as [|y l IH]; simpl; [tauto|].
  destruct l as [|z l]; [simpl; tauto|].
  intros [H|H]; [left; assumption | right; apply IH; assumption].
Qed.

Lemma removelast_NoDup (l : list JS.jsstring) :
  NoDup l -> NoDup (removelast l).
Proof.
  induction 1 as [|y l Hy Hl IH]; simpl; [constructor|].
  destruct l as [|z l]; [constructor|].
  constructor; [| assumption].
  intros Hin; apply Hy; apply removelast_In; assumption.
Qed.

Lemma removelast_length (l : list JS.jsstring) :
  List.length (removelast l) <= List.length l.
Proof.
  rewrite removelast_firstn_len, length_firstn. lia.
Qed.

(** What a press of Enter or of the comma key does to the list. *)
Lemma add_keyword_spec (key : JS.jsstring) (st : TagInput) :
  key = JS.str "Enter" \/ key = JS.str "," ->
  let value := JS.trim (coreProductKeywordInput st) in
  (value <> [] /\ ~ In value (coreProductKeywords st)
   /\ List.length (coreProductKeywords st) < 3 ->
   handleCoreProductKeywordKeyDown key st
     = {| coreProductKeywords := coreProductKeywords st ++ [value];
          coreProductKeywordInput := [] |})
  /\ (value = [] \/ In value (coreProductKeywords st)
      \/ 3 <= List.length (coreProductKeywords st) ->
      handleCoreProductKeywordKeyDown key st = st).
Proof.
  intros Hkey value. unfold handleCoreProductKeywordKeyDown.
  assert (K : JS.string_eqb key (JS.str "Enter") || JS.string_eqb key (JS.str ",")
              = true).
  { destruct Hkey; subst key; reflexivity. }
  rewrite K. fold value.
  assert (T : JS.to_boolean (JS.VStr value) = true <-> value <> []).
  { destruct value; simpl; split; congruence. }
  destruct (JS.to_boolean (JS.VStr value)) eqn:Tv;
    destruct (JS.includes (coreProductKeywords st) value) eqn:Inc;
    destruct (Nat.ltb_spec (List.length (coreProductKeywords st)) 3) as [L|L];
    cbn [andb negb]; split; intros H; try reflexivity; exfalso;
    try (apply includes_In in Inc);
    try (assert (Ni : ~ In value (coreProductKeywords st))
           by (intros Hin; apply includes_In in Hin; congruence));
    try (assert (Ne : value <> []) by (apply T; reflexivity));
    try (assert (Em : ~ value <> []) by (intros Hv; apply T in Hv; discriminate));
    intuition lia.
Qed.

Lemma step_preserves (st : TagInput) (e : event) :
  List.length (coreProductKeywords st) <= 3 /\ NoDup (coreProductKeywords st) ->
  List.length (coreProductKeywords (step st e)) <= 3
  /\ NoDup (coreProductKeywords (step st e)).
Proof.
  intros [Hlen Hnd]. destruct e as [key|text|index]; simpl.
  - unfold handleCoreProductKeywordKeyDown.
    destruct (JS.string_eqb key (JS.str "Enter") || JS.string_eqb key (JS.str ",")).
    + destruct (JS.to_boolean (JS.VStr (JS.trim (coreProductKeywordInput st)))
                && negb (JS.includes (coreProductKeywords st)
                           (JS.trim (coreProductKeywordInput st)))) eqn:G;
        [| split; assumption].
      destruct (Nat.ltb_spec (List.length (coreProductKeywords st)) 3) as [L|L];
        [| split; assumption].
      apply andb_true_iff in G. destruct G as [_ G].
      apply negb_true_iff in G. simpl. split.
      * rewrite length_app. simpl. lia.
      * apply NoDup_app; [assumption | repeat constructor; simpl; tauto |].
        intros a Ha [<-|[]].
        apply includes_In in Ha. congruence.
    + destruct (JS.string_eqb key (JS.str "Backspace")
                && JS.string_eqb (coreProductKeywordInput st) []
                && (0 <? List.length (coreProductKeywords st)));
        [| split; assumption].
      simpl. unfold slice_0_minus_1. split.
      * pose proof (removelast_length (coreProductKeywords st)). lia.
      * apply removelast_NoDup; assumption.
  - split; assumption.
  - split.
    + pose proof (filter_index_from_length 0 index (coreProductKeywords st)). lia.
    + apply filter_index_from_NoDup; assumption.
Qed.

Lemma fold_step_preserves (events : list event) (st : TagInput) :
  List.length (coreProductKeywords st) <= 3 /\ NoDup (coreProductKeywords st) ->
  List.length (coreProductKeywords (fold_left step events st)) <= 3
  /\ NoDup (coreProductKeywords (fold_left step events st)).
Proof.
  revert st; induction events as [|e events IH]; intros st H; simpl.
  - assumption.
  - apply IH. apply step_preserves. assumption.
Qed.

End TagInput.

(** C10.  Whatever the user does to the tag input, the keyword list holds
    at most 3 entries and no duplicate.  A press of Enter or of the comma
    appends the trimmed text of the box when it is non-empty, not yet in
    the list and the list holds fewer than 3 entries, and leaves the list
    alone otherwise; the remove button deletes the entry at its index and
    nothing else. *)
Theorem core_product_keywords_invariant :
  (forall events : list NewAuditPage.event,
     List.length (NewAuditPage.coreProductKeywords (NewAuditPage.run events)) <= 3
     /\ NoDup (NewAuditPage.coreProductKeywords (NewAuditPage.run events)))
  /\ (forall (key : JS.jsstring) (st : NewAuditPage.TagInput),
        key = JS.str "Enter" \/ key = JS.str "," ->
        let value := JS.trim (NewAuditPage.coreProductKeywordInput st) in
        let keywords := NewAuditPage.coreProductKeywords st in
        let after := NewAuditPage.coreProductKeywords
                       (NewAuditPage.handleCoreProductKeywordKeyDown key st) in
        (value <> [] /\ ~ In value keywords /\ List.length keywords < 3 ->
         after = keywords ++ [value])
        /\ (value = [] \/ In value keywords \/ 3 <= List.length keywords ->
            after = keywords))
  /\ (forall (index : nat) (st : NewAuditPage.TagInput),
        NewAuditPage.coreProductKeywords
          (NewAuditPage.removeCoreProductKeyword index st)
        = firstn index (NewAuditPage.coreProductKeywords st)
          ++ skipn (S index) (NewAuditPage.coreProductKeywords st)).
Proof.
  split; [| split].
  - intros events. unfold NewAuditPage.run. apply fold_step_preserves.
    simpl. split; [lia | constructor].
  - intros key st Hkey value keywords after.
    destruct (add_keyword_spec st Hkey) as [Hadd Hskip].
    subst after. split; intros H.
    + rewrite Hadd by exact H. reflexivity.
    + rewrite Hskip by exact H. reflexivity.
  - intros index st. simpl.
    rewrite filter_index_from_spec by lia. rewrite Nat.sub_0_r. reflexivity.
Qed.

Lemma core_product_keywords_invariant_witness :
  NewAuditPage.coreProductKeywords
    (NewAuditPage.handleCoreProductKeywordKeyDown (JS.str "Enter")
       {| NewAuditPage.coreProductKeywords := [JS.str "tasks"];
          NewAuditPage.coreProductKeywordInput := JS.str " boards " |})
  = [JS.str "tasks"; JS.str "boards"].
Proof.
  apply (proj1 (proj1 (proj2 core_product_keywords_invariant)
                  (JS.str "Enter")
                  {| NewAuditPage.coreProductKeywords := [JS.str "tasks"];
                     NewAuditPage.coreProductKeywordInput := JS.str " boards " |}
                  (or_introl eq_refl))).
  split; [discriminate | split; [| simpl; lia]].
  intros [H|[]]. discriminate H.
Defined.

(** The sample session: a repeated keyword is not added twice. *)
Example tag_input_session :
  NewAuditPage.run Samples.typing
  = {| NewAuditPage.coreProductKeywords := [JS.str "tasks"; JS.str "boards"];
       NewAuditPage.coreProductKeywordInput := [] |}
  /\ NewAuditPage.coreProductKeywords
       (NewAuditPage.run (Samples.typing ++ [NewAuditPage.RemoveClick 0]))
     = [JS.str "boards"]
  /\ NewAuditPage.coreProductKeywords
       (NewAuditPage.run (Samples.typing ++ [NewAuditPage.KeyDown (JS.str "Backspace")]))
     = [JS.str "tasks"].
Proof. repeat split; reflexivity. Qed.

(** ** C5: the keywords of the submitted request *)

Lemma split_nonempty (sep : JS.code_unit) (s : JS.jsstring) :
  JS.split sep s <> [].
Proof.
  destruct s as [|c r]; simpl; [discriminate|].
  destruct (N.eqb c sep); [discriminate|].
  destruct (JS.split sep r); discriminate.
Qed.

(** Every entry of [keywordArray] is a trimmed, non-empty piece of the
    keywords box. *)
Lemma keywordArray_entries (data : NewAuditPage.AuditFormData) (k : JS.jsstring) :
  In k (NewAuditPage.keywordArray data) ->
  k <> []
  /\ exists piece,
       In piece (JS.split NewAuditPage.comma (NewAuditPage.keywords data))
       /\ k = JS.trim piece.
Proof.
  unfold NewAuditPage.keywordArray. rewrite filter_In, in_map_iff.
  intros [(piece & E & Hin) Hlen]. split.
  - destruct k; [discriminate Hlen | discriminate].
  - exists piece. split; [assumption | symmetry; assumption].
Qed.






(** ** C8: [extractApiError] *)

Section ExtractApiError.
Import JS ApiTypes.









End ExtractApiError.




(** The three branches on well-typed inputs, and on values that are no
    object at all. *)
Example extractApiError_examples :
  ApiTypes.extractApiError Samples.axios_404
  = JS.Normal {| ApiTypes.message := JS.VStr (JS.str "not found");
                 ApiTypes.status := Some (JS.VNum (JS.Num 404));
                 ApiTypes.detail := Some (JS.VStr (JS.str "no such audit")) |}
  /\ ApiTypes.extractApiError Samples.error_boom
     = JS.Normal {| ApiTypes.message := JS.VStr (JS.str "boom");
                    ApiTypes.status := None; ApiTypes.detail := None |}
  /\ ApiTypes.extractApiError (JS.VObj JS.ErrorObject [])
     = JS.Normal {| ApiTypes.message := JS.VStr ApiTypes.unknown_error;
                    ApiTypes.status := None; ApiTypes.detail := None |}
  /\ ApiTypes.extractApiError JS.VNull
     = JS.Normal {| ApiTypes.message := JS.VStr ApiTypes.unknown_error;
                    ApiTypes.status := None; ApiTypes.detail := None |}
  /\ ApiTypes.extractApiError (JS.VStr (JS.str "timeout"))
     = JS.Normal {| ApiTypes.message := JS.VStr ApiTypes.unknown_error;
                    ApiTypes.status := None; ApiTypes.detail := None |}.
Proof. repeat split; reflexivity. Qed.

(** ** C3: polling *)

Section PollingPages.
Import JS Polling.

Lemma in_progress_iff (data : Api.AuditResponse) :
  in_progress data = true
  <-> Api.status data = Api.pending \/ Api.status data = Api.running.
Proof.
  unfold in_progress. destruct (Api.status data); cbv; split;
    intros H; try congruence; try (destruct H; congruence); auto.
Qed.

(** The detail page: the timer is set exactly while [polling] holds, and
    its period is 7000 ms. *)
Lemma detail_page_step (auditId : jsstring) (r : fetched) (st : state) :
  to_boolean (VStr auditId) = true ->
  pollingIntervalRef st = (if polling st then Some 7000%N else None) ->
  pollingIntervalRef (AuditDetailPage.fetchAudit auditId r st)
  = (if polling (AuditDetailPage.fetchAudit auditId r st)
     then Some 7000%N else None).
Proof.
  intros Hid Hst. unfold AuditDetailPage.fetchAudit. rewrite Hid. cbn [negb].
  destruct r as [data|]; [| assumption].
  unfold AuditDetailPage.setPolling.
  destruct (Bool.eqb (in_progress data) (polling st)) eqn:E; [assumption|].
  cbn [polling pollingIntervalRef].
  unfold AuditDetailPage.polling_effect. rewrite Hid.
  destruct (in_progress data); reflexivity.
Qed.

Lemma detail_page_fold (auditId : jsstring) (rs : list fetched) (st : state) :
  to_boolean (VStr auditId) = true ->
  pollingIntervalRef st = (if polling st then Some 7000%N else None) ->
  let st' := fold_left (fun st r => AuditDetailPage.fetchAudit auditId r st) rs st in
  pollingIntervalRef st' = (if polling st' then Some 7000%N else None).
Proof.
  intros Hid. revert st. induction rs as [|r rs IH]; intros st Hst; simpl.
  - assumption.
  - apply IH. apply detail_page_step; assumption.
Qed.

Lemma detail_page_last (auditId : jsstring) (data : Api.AuditResponse) (st : state) :
  to_boolean (VStr auditId) = true ->
  polling (AuditDetailPage.fetchAudit auditId (Fetched data) st) = in_progress data.
Proof.
  intros Hid. unfold AuditDetailPage.fetchAudit. rewrite Hid. cbn [negb].
  unfold AuditDetailPage.setPolling.
  destruct (Bool.eqb (in_progress data) (polling st)) eqn:E.
  - apply Bool.eqb_prop in E. symmetry; assumption.
  - reflexivity.
Qed.

(** The detail page does what the service recommends: after any history
    of fetches, the last of which returned [data], a timer of 7000 ms
    (between 5 and 10 seconds) runs when [data] is pending or running, and
    no timer runs when it is completed or failed. *)
Lemma detail_page_polls_as_recommended
    (auditId : jsstring) (rs : list fetched) (data : Api.AuditResponse) :
  to_boolean (VStr auditId) = true ->
  pollingIntervalRef (AuditDetailPage.run auditId (rs ++ [Fetched data]))
  = (if in_progress data then Some 7000%N else None)
  /\ recommended 7000.
Proof.
  intros Hid. split; [| unfold recommended; lia].
  unfold AuditDetailPage.run.
  pose proof (detail_page_fold auditId (rs ++ [Fetched data]) mounted Hid eq_refl)
    as H.
  cbv zeta in H. rewrite H. rewrite fold_left_app. cbn [fold_left].
  rewrite detail_page_last by assumption. reflexivity.
Qed.

(** The report page: the timer is set exactly while [polling] holds, and
    its period is 3000 ms. *)
Lemma report_page_step (auditId : jsstring) (r : fetched) (st : state) :
  pollingIntervalRef st = (if polling st then Some 3000%N else None) ->
  pollingIntervalRef (BrandReportPage.fetchAudit auditId r st)
  = (if polling (BrandReportPage.fetchAudit auditId r st)
     then Some 3000%N else None).
Proof.
  intros Hst. unfold BrandReportPage.fetchAudit.
  destruct (negb (to_boolean (VStr auditId))); [assumption|].
  destruct r as [data|]; [| assumption].
  unfold BrandReportPage.setPolling, BrandReportPage.clear.
  cbn [polling pollingIntervalRef].
  destruct (polling st) eqn:P;
    destruct (string_eqb (Api.status_literal (Api.status data)) (str "completed"));
    destruct (in_progress data);
    destruct (string_eqb (Api.status_literal (Api.status data)) (str "failed"));
    cbn; try rewrite P; try assumption; try reflexivity.
Qed.

Lemma report_page_fold (auditId : jsstring) (rs : list fetched) (st : state) :
  pollingIntervalRef st = (if polling st then Some 3000%N else None) ->
  let st' := fold_left (fun st r => BrandReportPage.fetchAudit auditId r st) rs st in
  pollingIntervalRef st' = (if polling st' then Some 3000%N else None).
Proof.
  revert st. induction rs as [|r rs IH]; intros st Hst; simpl.
  - assumption.
  - apply IH. apply report_page_step; assumption.
Qed.

Lemma report_page_last (auditId : jsstring) (data : Api.AuditResponse) (st : state) :
  to_boolean (VStr auditId) = true ->
  polling (BrandReportPage.fetchAudit auditId (Fetched data) st) = in_progress data.
Proof.
  intros Hid. unfold BrandReportPage.fetchAudit. rewrite Hid. cbn [negb].
  unfold BrandReportPage.setPolling, BrandReportPage.clear, in_progress.
  cbn [polling pollingIntervalRef].
  destruct (Api.status data); destruct (polling st) eqn:P; cbn;
    try rewrite P; reflexivity.
Qed.

(** The report page stops on a terminal status as well, but while the
    audit is pending or running its timer has a period of 3000 ms. *)
Lemma report_page_polls_every_3000
    (auditId : jsstring) (rs : list fetched) (data : Api.AuditResponse) :
  to_boolean (VStr auditId) = true ->
  pollingIntervalRef (BrandReportPage.run auditId (rs ++ [Fetched data]))
  = (if in_progress data then Some 3000%N else None)
  /\ ~ recommended 3000.
Proof.
  intros Hid. split; [| unfold recommended; lia].
  unfold BrandReportPage.run.
  pose proof (report_page_fold auditId (rs ++ [Fetched data]) mounted eq_refl)
    as H.
  cbv zeta in H. rewrite H. rewrite fold_left_app. cbn [fold_left].
  rewrite report_page_last by assumption. reflexivity.
Qed.

End PollingPages.

(** C3 at the report page.  With an audit that is still running the report
    page sets a timer of 3000 ms, which is outside the recommended 5 to 10
    seconds; the detail page sets one of 7000 ms on the same input.  Both
    stop once the audit is completed. *)
Theorem report_page_interval_not_recommended :
  Polling.pollingIntervalRef
    (BrandReportPage.run (JS.str "audit_001")
       [Polling.Fetched (Samples.audit "audit_001" Api.running None)])
  = Some 3000%N
  /\ ~ Polling.recommended 3000
  /\ Polling.pollingIntervalRef
       (AuditDetailPage.run (JS.str "audit_001")
          [Polling.Fetched (Samples.audit "audit_001" Api.running None)])
     = Some 7000%N
  /\ Polling.recommended 7000
  /\ Polling.pollingIntervalRef
       (BrandReportPage.run (JS.str "audit_001")
          [Polling.Fetched (Samples.audit "audit_001" Api.running None);
           Polling.Fetched (Samples.audit "audit_001" Api.completed
                              (Some (JS.Num 71.5)))])
     = None
  /\ Polling.pollingIntervalRef
       (AuditDetailPage.run (JS.str "audit_001")
          [Polling.Fetched (Samples.audit "audit_001" Api.running None);
           Polling.Fetched (Samples.audit "audit_001" Api.completed
                              (Some (JS.Num 71.5)))])
     = None.
Proof.
  unfold Polling.recommended.
  split; [reflexivity|]. split; [lia|]. split; [reflexivity|].
  split; [lia|]. split; reflexivity.
Qed.

(** ** C1 and C2: the Geo Scorer *)

Section ScorerProperties.
Import GeoScorer.
Local Open Scope Q_scope.

Lemma clamp_bounds (x : Q) : 0 <= clamp x /\ clamp x <= 100.
Proof.
  unfold clamp. split.
  - apply Q.le_max_l.
  - apply Q.max_lub; [discriminate | apply Q.le_min_l].
Qed.

Lemma clamp_id (x : Q) : 0 <= x -> x <= 100 -> clamp x == x.
Proof.
  intros Lo Hi. unfold clamp.
  rewrite Q.max_r by (apply Q.min_glb; [discriminate | assumption]).
  apply Q.min_r. assumption.
Qed.

Lemma of_nat_nonneg (n : nat) : 0 <= of_nat n.
Proof.
  unfold of_nat. change 0 with (inject_Z 0). rewrite <- Zle_Qle. lia.
Qed.

Lemma of_nat_le (m n : nat) : (m <= n)%nat -> of_nat m <= of_nat n.
Proof. intros H. unfold of_nat. rewrite <- Zle_Qle. lia. Qed.

Lemma of_nat_pos (n : nat) : (0 < n)%nat -> 0 < of_nat n.
Proof.
  intros H. unfold of_nat. change 0 with (inject_Z 0). rewrite <- Zlt_Qlt. lia.
Qed.

Lemma mentioned_count_le (results : list ProbeResult) :
  (mentioned_count results <= List.length results)%nat.
Proof. unfold mentioned_count. apply filter_length_le. Qed.

(** With at least one result the share of model is computed, and it lies
    in [[0,100]]. *)
Lemma share_of_model_defined (results : list ProbeResult) :
  results <> [] ->
  exists s, share_of_model results = Returned s /\ 0 <= s /\ s <= 100.
Proof.
  intros Hne. unfold share_of_model, divide.
  assert (Hpos : 0 < of_nat (List.length results)).
  { apply of_nat_pos. destruct results; [congruence | simpl; lia]. }
  destruct (Qeq_bool (of_nat (List.length results)) 0) eqn:Z.
  - apply Qeq_bool_iff in Z. rewrite Z in Hpos.
    exfalso. exact (Qlt_irrefl 0 Hpos).
  - cbn [and_then]. eexists. split; [reflexivity|].
    pose proof (of_nat_nonneg (mentioned_count results)) as Hm.
    pose proof (of_nat_le (mentioned_count_le results)) as Hle.
    set (m := of_nat (mentioned_count results)) in *.
    set (n := of_nat (List.length results)) in *.
    assert (D0 : 0 <= m / n).
    { apply Qle_shift_div_l; [assumption|]. rewrite Qmult_0_l. assumption. }
    assert (D1 : m / n <= 1).
    { apply Qle_shift_div_r; [assumption|]. rewrite Qmult_1_l. assumption. }
    split; lra.
Qed.

Section Curves.

Variable citation_curve : nat -> nat -> Q.
Variable ranking_curve : list ProbeResult -> Q.
Variable accuracy_curve : list ProbeResult -> Q.
Variable average_ranking_of : list ProbeResult -> Q.
Variable hallucinations_of : list ProbeResult -> nat.
Variable proportion_interval : nat -> nat -> Q * Q.

Lemma citation_of_bounds (o a : nat) :
  0 <= citation_of citation_curve o a /\ citation_of citation_curve o a <= 100.
Proof.
  unfold citation_of. destruct (Nat.eqb (o + a) 0).
  - split; discriminate.
  - apply clamp_bounds.
Qed.

Lemma ranking_of_bounds (results : list ProbeResult) :
  0 <= ranking_of ranking_curve results /\ ranking_of ranking_curve results <= 100.
Proof.
  unfold ranking_of. destruct (Nat.eqb (mentioned_count results) 0).
  - split; discriminate.
  - apply clamp_bounds.
Qed.

(** The scorer returns on every list of results, and every score it
    returns lies in [[0,100]]. *)
Lemma score_defined (results : list ProbeResult) (w : Weights) :
  exists g,
    score citation_curve ranking_curve accuracy_curve average_ranking_of
          hallucinations_of proportion_interval results w = Returned g
    /\ weights g = w
    /\ overall_score g
       == clamp (weighted_sum w (som_score (breakdown g))
                              (citation_score (breakdown g))
                              (ranking_score (breakdown g))
                              (accuracy_score (breakdown g)))
    /\ (0 <= som_score (breakdown g) /\ som_score (breakdown g) <= 100)
    /\ (0 <= citation_score (breakdown g) /\ citation_score (breakdown g) <= 100)
    /\ (0 <= ranking_score (breakdown g) /\ ranking_score (breakdown g) <= 100)
    /\ (0 <= accuracy_score (breakdown g) /\ accuracy_score (breakdown g) <= 100).
Proof.
  destruct results as [|p ps].
  - exists (zero_score w).
    cbn [zero_score weights overall_score breakdown som_score citation_score
         ranking_score accuracy_score].
    split; [reflexivity|]. split; [reflexivity|]. split.
    + transitivity (weighted_sum w 0 0 0 0).
      * unfold weighted_sum. ring.
      * symmetry. apply clamp_id; unfold weighted_sum; lra.
    + repeat split; discriminate.
  - destruct (@share_of_model_defined (p :: ps)) as (s & Hs & Lo & Hi);
      [discriminate|].
    unfold score. rewrite Hs. cbn [and_then].
    eexists. split; [reflexivity|].
    cbn [weights overall_score breakdown som_score citation_score
         ranking_score accuracy_score].
    split; [reflexivity|]. split; [reflexivity|].
    split; [split; assumption|].
    split; [apply citation_of_bounds|].
    split; [apply ranking_of_bounds | apply clamp_bounds].
Qed.

End Curves.

End ScorerProperties.

(** The weights [barData] shows: those of the score, each replaced by its
    fallback when it is falsy (0 or NaN). *)
Lemma barData_weights (geoScore : Api.GeoScore) :
  map Scoring.bar_weight (Scoring.barData geoScore)
  = [ Scoring.number_or (Api.som (Api.weights geoScore)) (JS.Num 0.4);
      Scoring.number_or (Api.citation (Api.weights geoScore)) (JS.Num 0.3);
      Scoring.number_or (Api.ranking (Api.weights geoScore)) (JS.Num 0.2);
      Scoring.number_or (Api.accuracy (Api.weights geoScore)) (JS.Num 0.1) ]
  /\ Scoring.number_or (JS.Num 0) (JS.Num 0.4) = JS.Num 0.4
  /\ Scoring.number_or JS.NaN (JS.Num 0.4) = JS.Num 0.4
  /\ Scoring.number_or (JS.Num 0.25) (JS.Num 0.4) = JS.Num 0.25.
Proof. repeat split; reflexivity. Qed.

(** Without the guard of step 1 the division of step 2 would raise. *)
Example share_of_model_empty :
  GeoScorer.share_of_model [] = GeoScorer.Raised (JS.str "division by zero").
Proof. reflexivity. Qed.

(** C1.  On the empty list the scorer returns (it does not raise) a score
    whose overall score is 0, whose breakdown fields are all 0, whose
    confidence interval is (0, 0), whose test count is 0 and whose reason
    is [insufficient_data]. *)
Theorem score_empty
    (citation_curve : nat -> nat -> Q)
    (ranking_curve accuracy_curve average_ranking_of
       : list GeoScorer.ProbeResult -> Q)
    (hallucinations_of : list GeoScorer.ProbeResult -> nat)
    (proportion_interval : nat -> nat -> Q * Q)
    (w : GeoScorer.Weights) :
  exists g : GeoScorer.GeoScore,
    GeoScorer.score citation_curve ranking_curve accuracy_curve
      average_ranking_of hallucinations_of proportion_interval [] w
    = GeoScorer.Returned g
    /\ GeoScorer.overall_score g = 0%Q
    /\ GeoScorer.breakdown g
       = {| GeoScorer.som_score := 0; GeoScorer.citation_score := 0;
            GeoScorer.ranking_score := 0; GeoScorer.accuracy_score := 0;
            GeoScorer.mention_percentage := 0;
            GeoScorer.official_citations := 0;
            GeoScorer.authoritative_citations := 0;
            GeoScorer.average_ranking := 0;
            GeoScorer.hallucination_count := 0 |}
    /\ GeoScorer.confidence_interval g = (0, 0)%Q
    /\ GeoScorer.test_count g = 0
    /\ GeoScorer.reason g = Some GeoScorer.insufficient_data.
Proof.
  exists (GeoScorer.zero_score w). repeat split; reflexivity.
Qed.

(** C2.  With the default weights, which sum to 1 and are the weights the
    breakdown component falls back to, every score the scorer returns has
    an overall score equal to
    0.4 * som + 0.3 * citation + 0.2 * ranking + 0.1 * accuracy. *)
Theorem weighted_sum_identity
    (citation_curve : nat -> nat -> Q)
    (ranking_curve accuracy_curve average_ranking_of
       : list GeoScorer.ProbeResult -> Q)
    (hallucinations_of : list GeoScorer.ProbeResult -> nat)
    (proportion_interval : nat -> nat -> Q * Q)
    (results : list GeoScorer.ProbeResult) :
  exists g : GeoScorer.GeoScore,
    GeoScorer.score citation_curve ranking_curve accuracy_curve
      average_ranking_of hallucinations_of proportion_interval
      results GeoScorer.default_weights
    = GeoScorer.Returned g
    /\ (GeoScorer.overall_score g
        == 0.4 * GeoScorer.som_score (GeoScorer.breakdown g)
           + 0.3 * GeoScorer.citation_score (GeoScorer.breakdown g)
           + 0.2 * GeoScorer.ranking_score (GeoScorer.breakdown g)
           + 0.1 * GeoScorer.accuracy_score (GeoScorer.breakdown g))%Q
    /\ (GeoScorer.weights_sum GeoScorer.default_weights == 1)%Q
    /\ GeoScorer.default_weights
       = {| GeoScorer.som := Scoring.fallback_som;
            GeoScorer.citation := Scoring.fallback_citation;
            GeoScorer.ranking := Scoring.fallback_ranking;
            GeoScorer.accuracy := Scoring.fallback_accuracy |}.
Proof.
  destruct (score_defined citation_curve ranking_curve accuracy_curve
              average_ranking_of hallucinations_of proportion_interval
              results GeoScorer.default_weights)
    as (g & Hg & _ & Ho & [S0 S1] & [C0 C1] & [R0 R1] & [A0 A1]).
  exists g. split; [assumption|]. split; [| split; reflexivity].
  rewrite Ho. unfold GeoScorer.weighted_sum. cbn [GeoScorer.default_weights
    GeoScorer.som GeoScorer.citation GeoScorer.ranking GeoScorer.accuracy].
  apply clamp_id; lra.
Qed.

(** ** C7: what a caller receives *)

Section PipelineProperties.
Import GeoScorer AuditPipeline.

Variable valid_url : JS.jsstring -> bool.
Variable providers : list JS.jsstring.
Variable samples : nat.
Variable dispatch : list ProbeSpec -> outcome (list ProbeResponse).
Variable extract : JS.jsstring -> ProbeResponse -> outcome ProbeResult.
Variable citation_curve : nat -> nat -> Q.
Variable ranking_curve : list ProbeResult -> Q.
Variable accuracy_curve : list ProbeResult -> Q.
Variable average_ranking_of : list ProbeResult -> Q.
Variable hallucinations_of : list ProbeResult -> nat.
Variable proportion_interval : nat -> nat -> Q * Q.
Variable configured_weights : Weights.

Lemma create_pending (new_id : JS.jsstring) (request : Api.AuditRequest)
    (r : AuditRecord) :
  create valid_url new_id request = inr r ->
  status r = Api.pending /\ geo_score r = None /\ error r = None.
Proof.
  unfold create.
  repeat match goal with
         | |- context [if ?c then _ else _] => destruct c
         end; intros H; try discriminate H.
  inversion H; subst; cbn. repeat split; reflexivity.
Qed.

Lemma well_formed_in_flight (r : AuditRecord) (s : Api.AuditStatus) :
  s = Api.pending \/ s = Api.running ->
  geo_score r = None -> error r = None ->
  well_formed (with_status r s).
Proof.
  intros Hs Hg He. unfold well_formed, with_status. cbn.
  split; [| split].
  - intros E; destruct Hs; subst; discriminate.
  - intros E; destruct Hs; subst; discriminate.
  - intros _. split; assumption.
Qed.

Lemma well_formed_complete (r : AuditRecord) (g : GeoScore) :
  well_formed (complete r g).
Proof.
  unfold well_formed, complete. cbn. split; [| split].
  - intros _. exists g. split; reflexivity.
  - intros E; discriminate E.
  - intros [E|E]; discriminate E.
Qed.

Lemma well_formed_fail (r : AuditRecord) (m : JS.jsstring) :
  well_formed (fail r m).
Proof.
  unfold well_formed, fail. cbn. split; [| split].
  - intros E; discriminate E.
  - intros _. exists m. split; reflexivity.
  - intros [E|E]; discriminate E.
Qed.

(** A run adds well-formed snapshots only, and ends with a terminal one. *)
Lemma run_well_formed (store : list AuditRecord) (r : AuditRecord) :
  geo_score r = None -> error r = None ->
  Forall well_formed store ->
  Forall well_formed
    (run providers samples dispatch extract citation_curve ranking_curve
         accuracy_curve average_ranking_of hallucinations_of
         proportion_interval configured_weights store r).
Proof.
  intros Hg He Hstore. unfold run.
  assert (Hrun : well_formed (with_status r Api.running))
    by (apply well_formed_in_flight; auto).
  assert (Hall : forall last, well_formed last ->
            forall n, Forall well_formed
                        (last :: repeat (with_status r Api.running) n ++ store)).
  { intros last Hlast n. constructor; [assumption|].
    apply Forall_app. split; [| assumption].
    apply Forall_forall. intros x Hx. apply repeat_spec in Hx. subst x.
    assumption. }
  destruct (dispatch _) as [responses|m].
  - destruct (extract_all _ _ _) as [results|m].
    + destruct (score _ _ _ _ _ _ _ _) as [g|m].
      * apply (Hall _ (well_formed_complete _ g) 3).
      * apply (Hall _ (well_formed_fail _ m) 3).
    + apply (Hall _ (well_formed_fail _ m) 2).
  - apply (Hall _ (well_formed_fail _ m) 1).
Qed.

Lemma snapshots_well_formed (new_id : JS.jsstring) (request : Api.AuditRequest) :
  Forall well_formed
    (snapshots valid_url providers samples dispatch extract citation_curve
       ranking_curve accuracy_curve average_ranking_of hallucinations_of
       proportion_interval configured_weights new_id request).
Proof.
  unfold snapshots.
  destruct (create valid_url new_id request) as [e|r] eqn:C; [constructor|].
  destruct (create_pending _ _ C) as (Hs & Hg & He).
  apply run_well_formed; try assumption.
  constructor; [| constructor].
  unfold well_formed. rewrite Hs, Hg, He.
  split; [| split].
  - intros E; discriminate E.
  - intros E; discriminate E.
  - intros _. split; reflexivity.
Qed.

(** A run always ends: the latest snapshot is completed or failed. *)
Lemma run_terminates (store : list AuditRecord) (r : AuditRecord) :
  exists last rest,
    run providers samples dispatch extract citation_curve ranking_curve
        accuracy_curve average_ranking_of hallucinations_of
        proportion_interval configured_weights store r
    = last :: rest
    /\ (status last = Api.completed \/ status last = Api.failed).
Proof.
  unfold run.
  destruct (dispatch _) as [responses|m].
  - destruct (extract_all _ _ _) as [results|m].
    + destruct (score _ _ _ _ _ _ _ _) as [g|m];
        eexists; eexists; (split; [reflexivity|]); cbn; auto.
    + eexists; eexists; (split; [reflexivity|]); cbn; auto.
  - eexists; eexists; (split; [reflexivity|]); cbn; auto.
Qed.

(** When no probe succeeds the audit still completes, with the zero score
    and its reason. *)
Lemma run_without_responses (store : list AuditRecord) (r : AuditRecord) :
  dispatch (test_matrix providers samples (with_status r Api.running))
  = Returned [] ->
  exists rest,
    run providers samples dispatch extract citation_curve ranking_curve
        accuracy_curve average_ranking_of hallucinations_of
        proportion_interval configured_weights store r
    = complete (with_status r Api.running) (zero_score configured_weights)
      :: rest.
Proof.
  intros D. unfold run. rewrite D. cbn. eexists. reflexivity.
Qed.

End PipelineProperties.

(** C7.  Every snapshot a caller can be given is well formed: a completed
    one carries a score (possibly zero) and no error, a failed one carries
    an error message and no score, and one that is pending or running
    carries neither.  The detail page branches on the two cases of a
    completed audit: with a score (zero included) it shows the overview of
    that score, without one it shows the no-score warning; for any other
    status it shows neither. *)
Theorem completed_audit_carries_score
    (valid_url : JS.jsstring -> bool)
    (providers : list JS.jsstring) (samples : nat)
    (dispatch : list GeoScorer.ProbeSpec ->
                GeoScorer.outcome (list AuditPipeline.ProbeResponse))
    (extract : JS.jsstring -> AuditPipeline.ProbeResponse ->
               GeoScorer.outcome GeoScorer.ProbeResult)
    (citation_curve : nat -> nat -> Q)
    (ranking_curve accuracy_curve average_ranking_of
       : list GeoScorer.ProbeResult -> Q)
    (hallucinations_of : list GeoScorer.ProbeResult -> nat)
    (proportion_interval : nat -> nat -> Q * Q)
    (configured_weights : GeoScorer.Weights)
    (new_id : JS.jsstring) (request : Api.AuditRequest) :
  Forall (fun r : AuditPipeline.AuditRecord =>
            AuditPipeline.well_formed r
            /\ ~ (AuditPipeline.status r = Api.completed
                  /\ AuditPipeline.geo_score r = None))
    (AuditPipeline.snapshots valid_url providers samples dispatch extract
       citation_curve ranking_curve accuracy_curve average_ranking_of
       hallucinations_of proportion_interval configured_weights
       new_id request)
  /\ (forall audit : Api.AuditResponse,
        (Api.status audit = Api.completed ->
         forall score, Api.geo_score audit = Some score ->
           AuditDetailPage.render_score audit
           = AuditDetailPage.ScoreOverview score (Api.geo_score_detail audit))
        /\ (Api.status audit = Api.completed ->
            Api.geo_score audit = None ->
            AuditDetailPage.render_score audit = AuditDetailPage.NoScoreWarning)
        /\ (Api.status audit <> Api.completed ->
            AuditDetailPage.render_score audit = AuditDetailPage.NoBlock)).
Proof.
  split.
  - eapply Forall_impl;
      [| apply (snapshots_well_formed valid_url providers samples dispatch
                  extract citation_curve ranking_curve accuracy_curve
                  average_ranking_of hallucinations_of proportion_interval
                  configured_weights new_id request)].
    intros r W. split; [assumption|].
    intros [Hc Hn]. destruct W as [W _].
    destruct (W Hc) as (g & Hg & _). congruence.
  - intros audit. unfold AuditDetailPage.render_score.
    destruct (Api.status audit) eqn:S; cbn;
      repeat split; intros; try congruence;
      try (match goal with H : Api.geo_score audit = _ |- _ => rewrite H end;
           reflexivity).
Qed.

Lemma completed_audit_carries_score_witness :
  AuditDetailPage.render_score
    (Samples.audit "audit_004" Api.completed (Some (JS.Num 0)))
  = AuditDetailPage.ScoreOverview (JS.Num 0) None.
Proof.
  apply (proj1 (proj2 (completed_audit_carries_score
                         (fun _ => true) [] 0
                         (fun _ => GeoScorer.Returned [])
                         (fun _ _ => GeoScorer.Raised [])
                         (fun _ _ => 0%Q) (fun _ => 0%Q) (fun _ => 0%Q)
                         (fun _ => 0%Q) (fun _ => 0) (fun _ _ => (0, 0)%Q)
                         GeoScorer.default_weights [] 
                         {| Api.req_brand_name := [];
                            Api.req_target_brand := [];
                            Api.req_keywords := [];
                            Api.req_target_website := None;
                            Api.req_ground_truth := None |})
                      (Samples.audit "audit_004" Api.completed (Some (JS.Num 0)))));
    reflexivity.
Defined.

(* ================================================================== *)
(** * More properties of the code *)
(* ================================================================== *)

(** ** [isApiErrorStatus] and [extractApiError] *)

Section ApiStatusProperties.
Import JS JSLib ApiTypes ApiStatus.

Lemma optional_get_total (v : value) (k : jsstring) :
  exists x, optional_get v k = Normal x.
Proof.
  unfold optional_get.
  destruct v as [| | b | n | s | cls props]; simpl; try (eexists; reflexivity).
  destruct (lookup props k); [eexists; reflexivity|].
  destruct (prototype_lookup cls k); eexists; reflexivity.
Qed.


End ApiStatusProperties.



(** ** [onSubmit] of the create-audit page *)

Section SubmitProperties.
Import JS Submit.


Lemma errorMessage_new_Error (message : jsstring) :
  message <> [] ->
  errorMessage (new_Error message) = Normal (VStr message).
Proof.
  intros H. destruct message as [|c rest]; [congruence|]. reflexivity.
Qed.

End SubmitProperties.


(** ** The audit list: the filter and the paging bar *)

Section ListProperties.
Import JS AuditsPage AuditsPaging.

Lemma filteredAudits_length (audits : list Api.AuditResponse) (f : AuditStatus) :
  List.length (filteredAudits audits f) <= List.length audits.
Proof.
  unfold filteredAudits.
  destruct (string_eqb (filter_literal f) (str "all")); [lia|].
  apply filter_length_le.
Qed.

Lemma skip_nonnegative_step (st : state) (e : event) :
  (0 <= skip st)%Z -> (0 <= skip (step st e))%Z.
Proof.
  intros H. destruct e as [a t|f| |]; simpl.
  - assumption.
  - destruct (same_filter f (statusFilter st)); simpl; [assumption | lia].
  - destruct (paging_bar_rendered st && negb (previous_disabled st)); simpl; lia.
  - destruct (paging_bar_rendered st && negb (next_disabled st)); simpl;
      unfold limit; lia.
Qed.

Lemma first_page_step (st : state) (e : event) :
  honours_limit e ->
  skip st = 0%Z /\ (Z.of_nat (List.length (audits st)) <= limit)%Z ->
  skip (step st e) = 0%Z
  /\ (Z.of_nat (List.length (audits (step st e))) <= limit)%Z.
Proof.
  intros He [Hs Ha]. destruct e as [a t|f| |]; simpl.
  - split; assumption.
  - destruct (same_filter f (statusFilter st)); simpl; split; auto.
  - unfold previous_disabled. rewrite Hs. simpl.
    rewrite andb_false_r. split; assumption.
  - assert (D : next_disabled st = true).
    { unfold next_disabled. rewrite Hs. apply Z.geb_le.
      pose proof (filteredAudits_length (audits st) (statusFilter st)).
      unfold shown. lia. }
    rewrite D. simpl. rewrite andb_false_r. split; assumption.
Qed.

End ListProperties.

(** X3.  On the audit list [skip] never becomes negative; and as long as
    every response holds at most [limit] (20) audits, as a server that
    honours [limit] sends them, [skip] stays 0 and the next-page button
    stays disabled: the list never leaves its first page. *)
Theorem audit_list_stays_on_first_page (events : list AuditsPaging.event) :
  (0 <= AuditsPaging.skip (AuditsPaging.run events))%Z
  /\ (Forall AuditsPaging.honours_limit events ->
      AuditsPaging.skip (AuditsPaging.run events) = 0%Z
      /\ AuditsPaging.next_disabled (AuditsPaging.run events) = true).
Proof.
  unfold AuditsPaging.run. split.
  - assert (G : forall st, (0 <= AuditsPaging.skip st)%Z ->
                (0 <= AuditsPaging.skip
                        (fold_left AuditsPaging.step events st))%Z).
    { induction events as [|e es IH]; intros st H; simpl; [assumption|].
      apply IH. apply skip_nonnegative_step. assumption. }
    apply G. simpl. lia.
  - intros H.
    assert (G : forall st,
              AuditsPaging.skip st = 0%Z
              /\ (Z.of_nat (List.length (AuditsPaging.audits st))
                  <= AuditsPaging.limit)%Z ->
              let st' := fold_left AuditsPaging.step events st in
              AuditsPaging.skip st' = 0%Z
              /\ (Z.of_nat (List.length (AuditsPaging.audits st'))
                  <= AuditsPaging.limit)%Z).
    { induction H as [|e es He Hes IH]; intros st Hst; simpl; [assumption|].
      apply IH. apply first_page_step; assumption. }
    destruct (G AuditsPaging.initial) as [Hs Ha].
    { simpl. unfold AuditsPaging.limit. split; [reflexivity | lia]. }
    split; [assumption|].
    unfold AuditsPaging.next_disabled. rewrite Hs. apply Z.geb_le.
    pose proof (filteredAudits_length
                  (AuditsPaging.audits (fold_left AuditsPaging.step events
                                          AuditsPaging.initial))
                  (AuditsPaging.statusFilter
                     (fold_left AuditsPaging.step events AuditsPaging.initial))).
    unfold AuditsPaging.shown. lia.
Qed.

Lemma audit_list_stays_on_first_page_witness :
  AuditsPaging.skip (AuditsPaging.run Scenarios.browsing) = 0%Z
  /\ AuditsPaging.next_disabled (AuditsPaging.run Scenarios.browsing) = true.
Proof.
  apply (proj2 (audit_list_stays_on_first_page Scenarios.browsing)).
  repeat constructor. cbn. discriminate.
Defined.

(** X4.  The four status filters split the list: every audit is shown
    under exactly one of them, so the four filtered lists have as many
    entries together as the list itself, and the count shown beside a
    filter never exceeds the length of the list. *)
Theorem status_filters_partition (audits : list Api.AuditResponse) :
  List.length (AuditsPage.filteredAudits audits AuditsPage.f_pending)
  + List.length (AuditsPage.filteredAudits audits AuditsPage.f_running)
  + List.length (AuditsPage.filteredAudits audits AuditsPage.f_completed)
  + List.length (AuditsPage.filteredAudits audits AuditsPage.f_failed)
  = List.length audits
  /\ (forall (f : AuditsPage.AuditStatus) (total : nat),
        f <> AuditsPage.f_all ->
        AuditsPage.filteredTotal audits total f <= List.length audits)
  /\ (forall total : nat,
        AuditsPage.filteredTotal audits total AuditsPage.f_all = total).
Proof.
  split; [| split].
  - induction audits as [|a l IH]; [reflexivity|].
    unfold AuditsPage.filteredAudits in *.
    change (JS.string_eqb (AuditsPage.filter_literal AuditsPage.f_pending)
              (JS.str "all")) with false in *.
    change (JS.string_eqb (AuditsPage.filter_literal AuditsPage.f_running)
              (JS.str "all")) with false in *.
    change (JS.string_eqb (AuditsPage.filter_literal AuditsPage.f_completed)
              (JS.str "all")) with false in *.
    change (JS.string_eqb (AuditsPage.filter_literal AuditsPage.f_failed)
              (JS.str "all")) with false in *.
    cbv iota in *. cbn [filter].
    destruct (Api.status a); cbn [Api.status_literal];
      repeat match goal with
             | |- context [JS.string_eqb (JS.str ?x) (AuditsPage.filter_literal ?f)] =>
                 let b := eval vm_compute in
                            (JS.string_eqb (JS.str x) (AuditsPage.filter_literal f)) in
                 change (JS.string_eqb (JS.str x) (AuditsPage.filter_literal f))
                   with b
             end; cbv iota; cbn [List.length]; lia.
  - intros f total Hf. unfold AuditsPage.filteredTotal.
    destruct (JS.string_eqb (AuditsPage.filter_literal f) (JS.str "all")) eqn:E.
    + apply filter_literal_all in E. contradiction.
    + apply filteredAudits_length.
  - intros total. reflexivity.
Qed.

Lemma status_filters_partition_witness :
  AuditsPage.filteredTotal Samples.three_audits 3 AuditsPage.f_running <= 3.
Proof.
  apply (proj1 (proj2 (status_filters_partition Samples.three_audits))
           AuditsPage.f_running 3).
  discriminate.
Defined.

(** ** Sorting with a comparator *)

Lemma Forall_permutation (A : Type) (P : A -> Prop) (l1 l2 : list A) :
  Permutation l1 l2 -> Forall P l1 -> Forall P l2.
Proof. intros H. exact (Permutation_Forall H). Qed.

Section SortProperties.
Import JS JSLib.

Variable A : Type.
Variable compare : A -> A -> number.

Lemma insert_permutation (x : A) (l : list A) :
  Permutation (insert compare x l) (x :: l).
Proof.
  induction l as [|y l IH]; simpl; [reflexivity|].
  destruct (number_gtb (compare x y) (Num 0)); [| reflexivity].
  rewrite IH. apply perm_swap.
Qed.

Lemma sort_permutation (l : list A) : Permutation (sort compare l) l.
Proof.
  induction l as [|x l IH]; simpl; [reflexivity|].
  rewrite insert_permutation. constructor. assumption.
Qed.

(** A comparator that orders by a rational key, on the elements that
    satisfy [P]. *)
Variable key : A -> Q.
Variable P : A -> Prop.
Hypothesis compare_key :
  forall x y, P x -> P y ->
    number_gtb (compare x y) (Num 0) = negb (Qle_bool (key x) (key y)).

Lemma insert_sorted (x : A) (l : list A) :
  P x -> Forall P l ->
  StronglySorted (fun a b => (key a <= key b)%Q) l ->
  StronglySorted (fun a b => (key a <= key b)%Q) (insert compare x l).
Proof.
  intros Px Pl S. induction S as [|y l S IH Hy]; simpl.
  - constructor; constructor.
  - inversion Pl as [|y' l' Py Pl']; subst.
    rewrite (compare_key Px Py).
    destruct (Qle_bool (key x) (key y)) eqn:C; simpl.
    + apply Qle_bool_iff in C. constructor.
      * constructor; assumption.
      * constructor; [assumption|].
        eapply Forall_impl; [| exact Hy].
        intros a Ha. eapply Qle_trans; eassumption.
    + apply Qle_bool_false in C. constructor.
      * apply IH. assumption.
      * apply (@Forall_permutation _ _ (x :: l)).
        -- symmetry. apply insert_permutation.
        -- constructor; [apply Qlt_le_weak; assumption | assumption].
Qed.

Lemma sort_sorted (l : list A) :
  Forall P l ->
  StronglySorted (fun a b => (key a <= key b)%Q) (sort compare l).
Proof.
  induction 1 as [|x l Px Pl IH]; simpl; [constructor|].
  apply insert_sorted; [assumption | | assumption].
  apply (@Forall_permutation _ _ l); [| assumption].
  symmetry. apply sort_permutation.
Qed.

(** Stability: the elements of one key keep their order. *)
Lemma insert_stable (v : Q) (x : A) (l : list A) :
  P x -> Forall P l ->
  filter (fun a => Qeq_bool (key a) v) (insert compare x l)
  = filter (fun a => Qeq_bool (key a) v) (x :: l).
Proof.
  intros Px Pl. induction Pl as [|y l Py Pl IH]; [reflexivity|].
  cbn [insert]. rewrite (compare_key Px Py).
  destruct (Qle_bool (key x) (key y)) eqn:C; cbn [negb]; [reflexivity|].
  apply Qle_bool_false in C.
  cbn [filter] in *. rewrite IH.
  destruct (Qeq_bool (key x) v) eqn:Ex; destruct (Qeq_bool (key y) v) eqn:Ey;
    try reflexivity.
  apply Qeq_bool_iff in Ex, Ey. rewrite Ex, Ey in C.
  exfalso. exact (Qlt_irrefl v C).
Qed.

Lemma sort_stable (v : Q) (l : list A) :
  Forall P l ->
  filter (fun a => Qeq_bool (key a) v) (sort compare l)
  = filter (fun a => Qeq_bool (key a) v) l.
Proof.
  induction 1 as [|x l Px Pl IH]; [reflexivity|].
  cbn [sort fold_right]. fold (sort compare l).
  rewrite insert_stable; [| assumption |].
  - cbn [filter]. rewrite IH. reflexivity.
  - apply (@Forall_permutation _ _ l); [| assumption].
    symmetry. apply sort_permutation.
Qed.

End SortProperties.

Lemma difference_positive (p q : Q) :
  JSLib.number_gtb (JSLib.number_sub (JS.Num p) (JS.Num q)) (JS.Num 0)
  = negb (Qle_bool p q).
Proof.
  simpl. f_equal.
  destruct (Qle_bool p q) eqn:C.
  - apply Qle_bool_iff in C. apply Qle_bool_iff. lra.
  - apply Qle_bool_false in C.
    destruct (Qle_bool (p - q) 0) eqn:D; [| reflexivity].
    apply Qle_bool_iff in D. lra.
Qed.

Lemma StronglySorted_impl (A : Type) (R S : A -> A -> Prop) (l : list A) :
  (forall a b, R a b -> S a b) -> StronglySorted R l -> StronglySorted S l.
Proof.
  intros H. induction 1 as [|x l Hl IH Hx]; constructor; [assumption|].
  eapply Forall_impl; [| exact Hx]. intros a. apply H.
Qed.

Lemma Qle_bool_opp (a b : Q) : Qle_bool (- a) (- b) = Qle_bool b a.
Proof.
  destruct (Qle_bool b a) eqn:C.
  - apply Qle_bool_iff in C. apply Qle_bool_iff. lra.
  - apply Qle_bool_false in C.
    destruct (Qle_bool (- a) (- b)) eqn:D; [| reflexivity].
    apply Qle_bool_iff in D. lra.
Qed.

Lemma Qeq_bool_opp (a b : Q) : Qeq_bool (- a) (- b) = Qeq_bool a b.
Proof.
  destruct (Qeq_bool a b) eqn:C.
  - apply Qeq_bool_iff in C. apply Qeq_bool_iff. rewrite C. reflexivity.
  - destruct (Qeq_bool (- a) (- b)) eqn:D; [| reflexivity].
    apply Qeq_bool_iff in D.
    assert (E : (a == b)%Q) by lra.
    apply Qeq_bool_iff in E. congruence.
Qed.

(** ** The competitor table *)

Section CompetitorProperties.
Import JS JSLib CompetitorComparison.

Lemma field_literal_eqb (g f : SortField) :
  string_eqb (field_literal g) (field_literal f) = true <-> g = f.
Proof. destruct g, f; cbv; split; congruence. Qed.

Lemma comparator_asc (f : SortField) (x y : CompetitorData) :
  real f x -> real f y ->
  number_gtb (comparator f asc x y) (Num 0)
  = negb (Qle_bool (real_value f x) (real_value f y)).
Proof.
  intros [p Hp] [q Hq]. unfold comparator, real_value. rewrite Hp, Hq.
  apply difference_positive.
Qed.

Lemma comparator_desc (f : SortField) (x y : CompetitorData) :
  real f x -> real f y ->
  number_gtb (comparator f desc x y) (Num 0)
  = negb (Qle_bool (- real_value f x) (- real_value f y)).
Proof.
  intros [p Hp] [q Hq]. unfold comparator, real_value. rewrite Hp, Hq.
  rewrite difference_positive, Qle_bool_opp. reflexivity.
Qed.

Lemma handleSort_reachable (st : sorting) (f : SortField) :
  st = unsorted \/ (exists g, st = {| sortField := Some g; sortOrder := Some desc |}) ->
  handleSort f st
  = (if match sortField st with
        | Some g => string_eqb (field_literal g) (field_literal f)
        | None => false
        end
     then unsorted
     else {| sortField := Some f; sortOrder := Some desc |}).
Proof.
  intros [-> | (g & ->)]; unfold handleSort; cbn; [reflexivity|].
  destruct (string_eqb (field_literal g) (field_literal f)); reflexivity.
Qed.

Lemma clicks_reachable (fs : list SortField) :
  clicks fs = unsorted
  \/ exists g, clicks fs = {| sortField := Some g; sortOrder := Some desc |}.
Proof.
  unfold clicks.
  assert (G : forall st,
            (st = unsorted
             \/ exists g, st = {| sortField := Some g; sortOrder := Some desc |}) ->
            let st' := fold_left (fun st f => handleSort f st) fs st in
            st' = unsorted
            \/ exists g, st' = {| sortField := Some g; sortOrder := Some desc |}).
  { induction fs as [|f fs IH]; intros st H; simpl; [assumption|].
    apply IH. rewrite (handleSort_reachable f H).
    destruct (match sortField st with
              | Some g => string_eqb (field_literal g) (field_literal f)
              | None => false
              end); [left; reflexivity | right; eexists; reflexivity]. }
  apply G. left; reflexivity.
Qed.

End CompetitorProperties.

(** X5.  Whatever columns are clicked, the table is either unsorted or
    sorted in descending order: ascending order is never selected.  A
    click on the column the table is sorted by removes the sorting, a
    click on any other column sorts by it, descending. *)
Theorem competitor_sort_never_ascending
    (fs : list CompetitorComparison.SortField) :
  CompetitorComparison.sortOrder (CompetitorComparison.clicks fs)
  <> Some CompetitorComparison.asc
  /\ (CompetitorComparison.sortField (CompetitorComparison.clicks fs) = None
      <-> CompetitorComparison.sortOrder (CompetitorComparison.clicks fs) = None)
  /\ (forall f : CompetitorComparison.SortField,
        (CompetitorComparison.sortField (CompetitorComparison.clicks fs) = Some f ->
         CompetitorComparison.clicks (fs ++ [f]) = CompetitorComparison.unsorted)
        /\ (CompetitorComparison.sortField (CompetitorComparison.clicks fs) <> Some f ->
            CompetitorComparison.clicks (fs ++ [f])
            = {| CompetitorComparison.sortField := Some f;
                 CompetitorComparison.sortOrder := Some CompetitorComparison.desc |})).
Proof.
  pose proof (clicks_reachable fs) as R.
  split; [| split].
  - destruct R as [-> | (g & ->)]; discriminate.
  - destruct R as [-> | (g & ->)]; cbn; split; congruence.
  - intros f. unfold CompetitorComparison.clicks at 2 4.
    rewrite !fold_left_app. cbn [fold_left].
    fold (CompetitorComparison.clicks fs).
    rewrite (handleSort_reachable f R).
    destruct (CompetitorComparison.sortField (CompetitorComparison.clicks fs))
      as [g|] eqn:F.
    + destruct (JS.string_eqb (CompetitorComparison.field_literal g)
                  (CompetitorComparison.field_literal f)) eqn:E.
      * split; [reflexivity|]. apply field_literal_eqb in E. congruence.
      * split; [| reflexivity]. intros H. inversion H; subst.
        rewrite (proj2 (field_literal_eqb f f) eq_refl) in E. discriminate.
    + split; [discriminate | reflexivity].
Qed.

Lemma competitor_sort_never_ascending_witness :
  CompetitorComparison.clicks
    ([CompetitorComparison.mentionRate] ++ [CompetitorComparison.mentionRate])
  = CompetitorComparison.unsorted.
Proof.
  apply (proj1 (proj2 (proj2 (competitor_sort_never_ascending
                                [CompetitorComparison.mentionRate]))
                  CompetitorComparison.mentionRate)).
  reflexivity.
Defined.

(** X6.  When the values of the chosen column are real numbers, the rows
    shown are a rearrangement of the rows given, in order of that column
    (largest first for descending, smallest first for ascending), and rows
    with equal values keep the order they were given in.  Without a column
    or an order the rows are shown as given. *)
Theorem sortedCompetitors_sorted
    (competitors : list CompetitorComparison.CompetitorData)
    (f : CompetitorComparison.SortField) (o : CompetitorComparison.SortOrder) :
  Forall (CompetitorComparison.real f) competitors ->
  let shown :=
    CompetitorComparison.sortedCompetitors competitors
      {| CompetitorComparison.sortField := Some f;
         CompetitorComparison.sortOrder := Some o |} in
  Permutation shown competitors
  /\ StronglySorted
       (fun a b =>
          match o with
          | CompetitorComparison.desc =>
              (CompetitorComparison.real_value f b
               <= CompetitorComparison.real_value f a)%Q
          | CompetitorComparison.asc =>
              (CompetitorComparison.real_value f a
               <= CompetitorComparison.real_value f b)%Q
          end) shown
  /\ (forall v : Q,
        filter (fun c => Qeq_bool (CompetitorComparison.real_value f c) v) shown
        = filter (fun c => Qeq_bool (CompetitorComparison.real_value f c) v)
            competitors)
  /\ CompetitorComparison.sortedCompetitors competitors
       CompetitorComparison.unsorted = competitors.
Proof.
  intros R shown. subst shown. unfold CompetitorComparison.sortedCompetitors.
  cbn [CompetitorComparison.sortField CompetitorComparison.sortOrder].
  split; [apply sort_permutation|]. split; [| split; [| reflexivity]].
  - destruct o.
    + apply (@sort_sorted _ _ (CompetitorComparison.real_value f)
               (CompetitorComparison.real f)); [| assumption].
      intros x y. apply comparator_asc.
    + eapply StronglySorted_impl;
        [| apply (@sort_sorted _ _
                    (fun c => (- CompetitorComparison.real_value f c)%Q)
                    (CompetitorComparison.real f)); [| assumption] ].
      * cbn beta. intros a b H. lra.
      * intros x y. apply comparator_desc.
  - intros v. destruct o.
    + apply (@sort_stable _ _ (CompetitorComparison.real_value f)
               (CompetitorComparison.real f)); [| assumption].
      intros x y. apply comparator_asc.
    + pose proof (@sort_stable _
                    (CompetitorComparison.comparator f CompetitorComparison.desc)
                    (fun c => (- CompetitorComparison.real_value f c)%Q)
                    (CompetitorComparison.real f)
                    (fun x y => @comparator_desc f x y) (- v)%Q _ R) as H.
      erewrite filter_ext in H; [erewrite filter_ext with (l := competitors) in H|].
      * exact H.
      * intros a. cbn beta. apply Qeq_bool_opp.
      * intros a. cbn beta. apply Qeq_bool_opp.
Qed.

Lemma sortedCompetitors_sorted_witness :
  Forall (CompetitorComparison.real CompetitorComparison.mentionRate)
         Scenarios.rows
  /\ Permutation
       (CompetitorComparison.sortedCompetitors Scenarios.rows
          {| CompetitorComparison.sortField :=
               Some CompetitorComparison.mentionRate;
             CompetitorComparison.sortOrder := Some CompetitorComparison.desc |})
       Scenarios.rows.
Proof.
  assert (H : Forall (CompetitorComparison.real CompetitorComparison.mentionRate)
                     Scenarios.rows).
  { repeat (constructor; [eexists; reflexivity|]). constructor. }
  split; [exact H|].
  apply (proj1 (@sortedCompetitors_sorted Scenarios.rows
                  CompetitorComparison.mentionRate CompetitorComparison.desc H)).
Defined.

(** ** The strategy recommendations *)

Section StrategyProperties.
Import JS JSLib Strategy.



End StrategyProperties.

(** X7.  The recommendations are shown in order of priority, high before
    medium before low; the list shown is a rearrangement of the list
    given, and recommendations of one priority keep the order they were
    given in. *)
Theorem sortedRecommendations_by_priority
    (recommendations : list Strategy.StrategyRecommendation) :
  Permutation (Strategy.sortedRecommendations recommendations) recommendations
  /\ StronglySorted
       (fun a b =>
          (Strategy.priorityOrder (Strategy.priority a)
           <= Strategy.priorityOrder (Strategy.priority b))%Q)
       (Strategy.sortedRecommendations recommendations)
  /\ (forall p : Strategy.Priority,
        filter (fun r => Qeq_bool (Strategy.priorityOrder (Strategy.priority r))
                                  (Strategy.priorityOrder p))
               (Strategy.sortedRecommendations recommendations)
        = filter (fun r => Qeq_bool (Strategy.priorityOrder (Strategy.priority r))
                                    (Strategy.priorityOrder p))
                 recommendations).
Proof.
  assert (K : forall x y : Strategy.StrategyRecommendation, True -> True ->
            JSLib.number_gtb
              (JSLib.number_sub
                 (JS.Num (Strategy.priorityOrder (Strategy.priority x)))
                 (JS.Num (Strategy.priorityOrder (Strategy.priority y))))
              (JS.Num 0)
            = negb (Qle_bool (Strategy.priorityOrder (Strategy.priority x))
                             (Strategy.priorityOrder (Strategy.priority y)))).
  { intros x y _ _. apply difference_positive. }
  assert (T : Forall (fun _ : Strategy.StrategyRecommendation => True)
                recommendations).
  { apply Forall_forall. intros; exact I. }
  unfold Strategy.sortedRecommendations.
  split; [apply sort_permutation|]. split.
  - apply (@sort_sorted _ _
             (fun r => Strategy.priorityOrder (Strategy.priority r))
             (fun _ => True) K _ T).
  - intros p.
    apply (@sort_stable _ _
             (fun r => Strategy.priorityOrder (Strategy.priority r))
             (fun _ => True) K _ _ T).
Qed.



(** ** Toasts *)

Section ToastProperties.
Import JS JSLib Toasts.

Lemma str_injective (a b : string) : str a = str b -> a = b.
Proof.
  unfold str. intros H.
  apply (f_equal (map ascii_of_N)) in H.
  rewrite !map_map in H.
  rewrite (map_ext _ (fun x => x)) in H by apply ascii_N_embedding.
  rewrite (map_ext (fun x => ascii_of_N (N_of_ascii x)) (fun x => x)) in H
    by apply ascii_N_embedding.
  rewrite !map_id in H.
  apply (f_equal string_of_list_ascii) in H.
  rewrite !string_of_list_ascii_of_string in H. assumption.
Qed.

Lemma to_uint_not_nil (n : N) : N.to_uint n <> Decimal.Nil.
Proof.
  destruct n as [|p]; [discriminate|].
  apply DecimalPos.Unsigned.to_uint_nonnil.
Qed.

(** Printing a natural number loses nothing. *)
Lemma number_to_string_injective (m n : N) :
  number_to_string m = number_to_string n -> m = n.
Proof.
  unfold number_to_string. intros H. apply str_injective in H.
  apply (f_equal NilZero.uint_of_string) in H.
  rewrite !NilZero.usu in H by apply to_uint_not_nil.
  inversion H as [E]. apply DecimalN.Unsigned.to_uint_inj. assumption.
Qed.

Lemma toast_id_injective (m n : N) : toast_id m = toast_id n -> m = n.
Proof.
  unfold toast_id. intros H. apply app_inv_head in H.
  apply number_to_string_injective. assumption.
Qed.

Lemma numbered_act (st : store) (a : action) :
  numbered st ->
  (match a with Show _ _ _ => (toastId st < 9007199254740992)%N | _ => True end) ->
  numbered (act st a).
Proof.
  intros [Hk Hn] Hlt. destruct a as [m t d | i]; simpl.
  - unfold showToast, increment.
    apply N.ltb_lt in Hlt. rewrite Hlt. apply N.ltb_lt in Hlt.
    split; cbn [toasts toastId].
    + apply Forall_app. split.
      * eapply Forall_impl; [| exact Hk].
        intros x (k & Hr & E). exists k. split; [lia | assumption].
      * constructor; [| constructor].
        exists (toastId st + 1)%N. split; [lia | reflexivity].
    + rewrite map_app. cbn [map id].
      apply NoDup_app; [assumption | repeat constructor; simpl; tauto |].
      intros x Hx [E|[]]. apply in_map_iff in Hx.
      destruct Hx as (y & Ey & Hy).
      rewrite Forall_forall in Hk. destruct (Hk y Hy) as (k & Hr & Ek).
      rewrite <- Ey, Ek in E. apply toast_id_injective in E. lia.
  - unfold removeToast. split; cbn [toasts toastId].
    + rewrite Forall_forall in *. intros x Hx. apply filter_In in Hx.
      apply Hk. tauto.
    + clear Hk. induction (toasts st) as [|y l IH]; simpl; [constructor|].
      inversion Hn as [|y' l' Hy Hl]; subst.
      destruct (negb (string_eqb (id y) i)); simpl; [| apply IH; assumption].
      constructor; [| apply IH; assumption].
      intros Hin. apply Hy. apply in_map_iff in Hin.
      destruct Hin as (z & Ez & Hz). apply filter_In in Hz.
      apply in_map_iff. exists z. tauto.
Qed.

Lemma toastId_act (st : store) (a : action) :
  (toastId (act st a)
   <= toastId st + (match a with Show _ _ _ => 1 | _ => 0 end))%N.
Proof.
  destruct a; simpl; unfold increment;
    [destruct (toastId st <? 9007199254740992)%N|]; lia.
Qed.

Lemma numbered_fold (actions : list action) (st : store) :
  numbered st ->
  (toastId st + N.of_nat (shows actions) <= 9007199254740992)%N ->
  numbered (fold_left act actions st).
Proof.
  revert st. induction actions as [|a actions IH]; intros st Hst Hb; simpl;
    [assumption|].
  pose proof (toastId_act st a) as Hid.
  apply IH.
  - apply numbered_act; [assumption|].
    destruct a; [| exact I]. unfold shows in Hb. simpl in Hb. lia.
  - unfold shows in *. destruct a; simpl in *; lia.
Qed.

Lemma one_with_id (l : list Toast) (i : jsstring) :
  NoDup (map id l) ->
  List.length (filter (fun t => string_eqb (id t) i) l) <= 1.
Proof.
  induction l as [|y l IH]; simpl; intros H; [lia|].
  inversion H as [|y' l' Hy Hl]; subst.
  destruct (string_eqb (id y) i) eqn:E; simpl; [| apply IH; assumption].
  apply string_eqb_eq in E.
  assert (Z : filter (fun t => string_eqb (id t) i) l = []).
  { destruct (filter (fun t => string_eqb (id t) i) l) as [|z r] eqn:F;
      [reflexivity|].
    assert (Hz : In z (filter (fun t => string_eqb (id t) i) l))
      by (rewrite F; left; reflexivity).
    apply filter_In in Hz. destruct Hz as [Hz Ez].
    apply string_eqb_eq in Ez. exfalso. apply Hy.
    apply in_map_iff. exists z. split; [congruence | assumption]. }
  rewrite Z. simpl. lia.
Qed.

End ToastProperties.

(** X9.  As long as at most 2^53 toasts have been shown, the toasts on
    screen have pairwise different ids; closing one removes the toast of
    that id, at most one toast, and leaves the others in place. *)
Theorem toast_ids_unique (actions : list Toasts.action) :
  (N.of_nat (Toasts.shows actions) <= 9007199254740992)%N ->
  NoDup (map Toasts.id (Toasts.toasts (Toasts.run actions)))
  /\ (forall i : JS.jsstring,
        (forall t, In t (Toasts.toasts (Toasts.removeToast i (Toasts.run actions)))
                   <-> In t (Toasts.toasts (Toasts.run actions))
                       /\ Toasts.id t <> i)
        /\ List.length (Toasts.toasts (Toasts.run actions))
           <= S (List.length
                   (Toasts.toasts (Toasts.removeToast i (Toasts.run actions))))).
Proof.
  intros Hb.
  assert (Hn : Toasts.numbered (Toasts.run actions)).
  { unfold Toasts.run. apply numbered_fold.
    - split; constructor.
    - simpl. lia. }
  destruct Hn as [_ Hn]. split; [assumption|].
  intros i. split.
  - intros t. unfold Toasts.removeToast. cbn [Toasts.toasts].
    rewrite filter_In, negb_true_iff.
    split; intros [H1 H2]; (split; [assumption|]).
    + intros E. apply string_eqb_eq in E. congruence.
    + destruct (JS.string_eqb (Toasts.id t) i) eqn:E; [| reflexivity].
      apply string_eqb_eq in E. contradiction.
  - unfold Toasts.removeToast. cbn [Toasts.toasts].
    pose proof (filter_length (fun t => JS.string_eqb (Toasts.id t) i)
                  (Toasts.toasts (Toasts.run actions))) as L.
    pose proof (one_with_id (Toasts.toasts (Toasts.run actions)) i Hn) as O.
    lia.
Qed.

Lemma toast_ids_unique_witness :
  NoDup (map Toasts.id (Toasts.toasts (Toasts.run Scenarios.two_toasts))).
Proof.
  assert (H : (N.of_nat (Toasts.shows Scenarios.two_toasts)
               <= 9007199254740992)%N)
    by (vm_compute; discriminate).
  apply (proj1 (@toast_ids_unique Scenarios.two_toasts H)).
Defined.

(** ** The detail page: its toasts and its error screen *)

Section DetailViewProperties.
Import JS JSLib Polling AuditDetailView.

Lemma status_literal_truthy (s : Api.AuditStatus) :
  to_boolean (VStr (Api.status_literal s)) = true.
Proof. destruct s; reflexivity. Qed.

Lemma status_literal_eqb (s s' : Api.AuditStatus) :
  string_eqb (Api.status_literal s) (Api.status_literal s') = true <-> s = s'.
Proof.
  split.
  - destruct s, s'; simpl; intros H; try reflexivity; discriminate H.
  - intros ->. destruct s'; reflexivity.
Qed.

(** What [notify] does, by whether the status is the one seen before. *)
Lemma notify_spec (previous : option jsstring) (s : Api.AuditStatus)
    (st : Toasts.store) :
  notify previous (Api.status_literal s) st
  = match previous with
    | Some p =>
        if to_boolean (VStr p) && negb (string_eqb p (Api.status_literal s))
        then {| Toasts.toastId := increment (Toasts.toastId st);
                Toasts.toasts :=
                  Toasts.toasts st
                  ++ [announcement s (increment (Toasts.toastId st))] |}
        else st
    | None => st
    end.
Proof.
  destruct previous as [p|]; [| reflexivity].
  unfold notify.
  destruct (to_boolean (VStr p) && negb (string_eqb p (Api.status_literal s)));
    [| reflexivity].
  destruct s; reflexivity.
Qed.

Lemma announcements_fetch (auditId : jsstring) (silent : bool) (r : fetched)
    (v : view) :
  announcements v -> announcements (fetchAudit auditId silent r v).
Proof.
  intros H. unfold fetchAudit.
  destruct (negb (to_boolean (VStr auditId))); [assumption|].
  destruct r as [data|]; [| exact H].
  unfold announcements. cbn [toast_store].
  rewrite notify_spec.
  destruct (previousStatusRef v) as [p|]; [| exact H].
  destruct (to_boolean (VStr p) && negb (string_eqb p _)); [| exact H].
  cbn [Toasts.toasts]. apply Forall_app. split; [exact H|].
  constructor; [| constructor]. eexists _, _. reflexivity.
Qed.

Lemma announcements_step (auditId : jsstring) (v : view) (e : event) :
  announcements v -> announcements (step auditId v e).
Proof.
  intros H. destruct e as [r|r|r|i]; cbn [step].
  - destruct (to_boolean (VStr auditId)); [| assumption].
    apply announcements_fetch. exact H.
  - destruct (to_boolean (VStr auditId)); [| exact H].
    apply announcements_fetch. exact H.
  - destruct (pollingIntervalRef (poll v)); [| assumption].
    apply announcements_fetch. exact H.
  - unfold announcements in *. cbn [toast_store Toasts.removeToast Toasts.toasts].
    rewrite Forall_forall in *. intros t Ht.
    apply filter_In in Ht. apply H. apply Ht.
Qed.

Lemma quiet_fetch (auditId : jsstring) (silent : bool) (r : fetched)
    (s : Api.AuditStatus) (v : view) :
  match r with Fetched data => Api.status data = s | FetchFailed => True end ->
  quiet s v -> quiet s (fetchAudit auditId silent r v).
Proof.
  intros Hr [Hp Ht]. unfold fetchAudit.
  destruct (negb (to_boolean (VStr auditId))); [split; assumption|].
  destruct r as [data|]; [| split; assumption].
  subst s. split; [right; reflexivity|].
  cbn [toast_store]. rewrite notify_spec.
  destruct Hp as [-> | ->]; [exact Ht|].
  rewrite (proj2 (status_literal_eqb _ _) eq_refl).
  rewrite andb_false_r. exact Ht.
Qed.

Lemma quiet_step (auditId : jsstring) (s : Api.AuditStatus) (v : view)
    (e : event) :
  fetched_only s e -> quiet s v -> quiet s (step auditId v e).
Proof.
  intros He H. destruct e as [r|r|r|i]; cbn [step].
  - destruct (to_boolean (VStr auditId)); [| assumption].
    apply quiet_fetch; [destruct r; exact He | exact H].
  - destruct (to_boolean (VStr auditId)); [| exact H].
    apply quiet_fetch; [destruct r; exact He | exact H].
  - destruct (pollingIntervalRef (poll v)); [| assumption].
    apply quiet_fetch; [destruct r; exact He | exact H].
  - destruct H as [Hp Ht]. split; [exact Hp|].
    cbn [toast_store Toasts.removeToast Toasts.toasts]. rewrite Ht. reflexivity.
Qed.

(** What the page can hold as its error. *)
Lemma error_fetch (auditId : jsstring) (silent : bool) (r : fetched) (v : view) :
  error v = None \/ error v = Some msg_fetch_failed ->
  error (fetchAudit auditId silent r v) = None
  \/ error (fetchAudit auditId silent r v) = Some msg_fetch_failed.
Proof.
  intros H. unfold fetchAudit.
  destruct (negb (to_boolean (VStr auditId))); [assumption|].
  destruct r; cbn [error]; [left; reflexivity|].
  destruct silent; [left | right]; reflexivity.
Qed.

Lemma error_step (auditId : jsstring) (v : view) (e : event) :
  error v = None \/ error v = Some msg_fetch_failed ->
  error (step auditId v e) = None
  \/ error (step auditId v e) = Some msg_fetch_failed.
Proof.
  intros H. destruct e as [r|r|r|i]; cbn [step].
  - destruct (to_boolean (VStr auditId)); [| assumption].
    apply error_fetch. exact H.
  - destruct (to_boolean (VStr auditId)); [| left; reflexivity].
    apply error_fetch. left; reflexivity.
  - destruct (pollingIntervalRef (poll v)); [| assumption].
    apply error_fetch. exact H.
  - assumption.
Qed.

Lemma run_invariant (P : view -> Prop) (auditId : jsstring) :
  P initial ->
  (forall v e, P v -> P (step auditId v e)) ->
  forall events, P (run auditId events).
Proof.
  intros H0 Hstep events. unfold run. generalize initial H0.
  induction events as [|e es IH]; intros v H; simpl; [assumption|].
  apply IH. apply Hstep. assumption.
Qed.

End DetailViewProperties.

(** X10.  On the detail page every toast on screen, after any history of
    loads, retries, timer ticks and closed toasts, announces a status: its
    message is the text of that status, it is a success toast for
    [completed] and an info toast otherwise, and it closes itself after
    6000 ms for [completed] and [failed] and after 4000 ms for the two
    others.  A history whose fetches all return the same status shows no
    toast at all. *)
Theorem detail_page_toasts (auditId : JS.jsstring)
    (events : list AuditDetailView.event) :
  (forall t,
      In t (Toasts.toasts (AuditDetailView.toast_store
                             (AuditDetailView.run auditId events))) ->
      exists s n,
        t = AuditDetailView.announcement s n
        /\ Toasts.close_timer t
           = Some (match s with
                   | Api.completed | Api.failed => JS.Num 6000
                   | _ => JS.Num 4000
                   end))
  /\ (forall s,
         Forall (AuditDetailView.fetched_only s) events ->
         Toasts.toasts (AuditDetailView.toast_store
                          (AuditDetailView.run auditId events)) = []).
Proof.
  split.
  - intros t Ht.
    assert (H : AuditDetailView.announcements (AuditDetailView.run auditId events)).
    { apply run_invariant; [constructor|].
      intros v e. apply announcements_step. }
    unfold AuditDetailView.announcements in H. rewrite Forall_forall in H.
    destruct (H t Ht) as (s & n & ->). exists s, n. split; [reflexivity|].
    destruct s; reflexivity.
  - intros s Hs. unfold AuditDetailView.run.
    assert (G : forall v, AuditDetailView.quiet s v ->
                AuditDetailView.quiet s (fold_left (AuditDetailView.step auditId) events v)).
    { induction Hs as [|e es He Hes IH]; intros v H; simpl; [assumption|].
      apply IH. apply quiet_step; assumption. }
    apply G. split; [left|]; reflexivity.
Qed.

Lemma detail_page_toasts_witness :
  Toasts.toasts (AuditDetailView.toast_store
                   (AuditDetailView.run (JS.str "audit_001")
                      Scenarios.still_running)) = [].
Proof.
  apply (proj2 (detail_page_toasts (JS.str "audit_001") Scenarios.still_running)
           Api.running).
  repeat (constructor; [reflexivity|]). constructor.
Defined.

(** X11.  On the detail page a fetch that returns an audit whose status is
    not the one remembered from the fetch before appends exactly one toast,
    the announcement of the new status, numbered by the next value of the
    toast counter; the first fetch, and a fetch with the remembered status,
    append none.  In both cases the status is remembered. *)
Theorem status_change_announced (auditId : JS.jsstring) (silent : bool)
    (data : Api.AuditResponse) (v : AuditDetailView.view) :
  JS.to_boolean (JS.VStr auditId) = true ->
  let v' := AuditDetailView.fetchAudit auditId silent (Polling.Fetched data) v in
  AuditDetailView.previousStatusRef v'
  = Some (Api.status_literal (Api.status data))
  /\ (forall s,
         AuditDetailView.previousStatusRef v = Some (Api.status_literal s) ->
         s <> Api.status data ->
         AuditDetailView.toast_store v'
         = {| Toasts.toastId :=
                JSLib.increment (Toasts.toastId (AuditDetailView.toast_store v));
              Toasts.toasts :=
                Toasts.toasts (AuditDetailView.toast_store v)
                ++ [AuditDetailView.announcement (Api.status data)
                      (JSLib.increment
                         (Toasts.toastId (AuditDetailView.toast_store v)))] |})
  /\ (AuditDetailView.previousStatusRef v = None
      \/ AuditDetailView.previousStatusRef v
         = Some (Api.status_literal (Api.status data)) ->
      AuditDetailView.toast_store v' = AuditDetailView.toast_store v).
Proof.
  intros Hid v'. subst v'. unfold AuditDetailView.fetchAudit.
  rewrite Hid. cbn [negb AuditDetailView.previousStatusRef
                    AuditDetailView.toast_store].
  split; [reflexivity|]. split.
  - intros s Hp Hne. rewrite notify_spec, Hp.
    rewrite status_literal_truthy.
    destruct (JS.string_eqb (Api.status_literal s)
                (Api.status_literal (Api.status data))) eqn:E.
    + apply status_literal_eqb in E. contradiction.
    + reflexivity.
  - intros Hp. rewrite notify_spec.
    destruct Hp as [-> | ->]; [reflexivity|].
    rewrite (proj2 (status_literal_eqb _ _) eq_refl), andb_false_r.
    reflexivity.
Qed.

Lemma status_change_announced_witness :
  AuditDetailView.toast_store
    (AuditDetailView.fetchAudit (JS.str "audit_001") true
       (Polling.Fetched (Samples.audit "audit_001" Api.completed None))
       (AuditDetailView.run (JS.str "audit_001") Scenarios.still_running))
  = {| Toasts.toastId := 1;
       Toasts.toasts := [AuditDetailView.announcement Api.completed 1] |}.
Proof.
  apply (proj1 (proj2
           (@status_change_announced (JS.str "audit_001") true
              (Samples.audit "audit_001" Api.completed None)
              (AuditDetailView.run (JS.str "audit_001") Scenarios.still_running)
              eq_refl))
           Api.running).
  - reflexivity.
  - discriminate.
Defined.

(** X12.  The detail page never shows the network-error block: the only
    error text it ever sets is the fetch-failed message, which does not
    contain the word the error screen looks for, so every failure is shown
    as audit-not-found.  The error it holds is always that message or
    none. *)
Theorem detail_page_never_network_error (auditId : JS.jsstring)
    (events : list AuditDetailView.event) :
  (AuditDetailView.error (AuditDetailView.run auditId events) = None
   \/ AuditDetailView.error (AuditDetailView.run auditId events)
      = Some AuditDetailView.msg_fetch_failed)
  /\ AuditDetailView.render (AuditDetailView.run auditId events)
     <> AuditDetailView.NetworkErrorBlock.
Proof.
  assert (H : AuditDetailView.error (AuditDetailView.run auditId events) = None
              \/ AuditDetailView.error (AuditDetailView.run auditId events)
                 = Some AuditDetailView.msg_fetch_failed).
  { apply (run_invariant
             (fun v => AuditDetailView.error v = None
                       \/ AuditDetailView.error v
                          = Some AuditDetailView.msg_fetch_failed));
      [left; reflexivity|].
    intros v e. apply error_step. }
  split; [exact H|].
  unfold AuditDetailView.render.
  destruct (AuditDetailView.loading _); [discriminate|].
  destruct H as [-> | ->].
  - destruct (AuditDetailView.audit _); discriminate.
  - change (JS.to_boolean (JS.VStr AuditDetailView.msg_fetch_failed)) with true.
    change (JSLib.string_includes AuditDetailView.msg_fetch_failed
              AuditDetailView.network_word) with false.
    cbn. discriminate.
Qed.

(** ** The report page: failures and screens *)

Section ReportViewProperties.
Import JS JSLib ReportView.

(** The [catch] block never throws. *)
Lemma classify_spec (err : value) :
  exists response st,
    optional_get err (str "response") = Normal response
    /\ optional_get response (str "status") = Normal st
    /\ classify err
       = Normal (if strict_eq_number st (Num 404) then str "not_found"
                 else if strict_eq_number st (Num 0)
                         || negb (to_boolean response)
                      then str "network"
                      else str "unknown").
Proof.
  destruct (optional_get_total err (str "response")) as (response & Hr).
  destruct (optional_get_total response (str "status")) as (st & Hs).
  exists response, st. split; [exact Hr|]. split; [exact Hs|].
  unfold classify, response_status. rewrite Hr. cbn [bind]. rewrite Hs.
  cbn [bind].
  destruct (strict_eq_number st (Num 404)); [reflexivity|].
  destruct (strict_eq_number st (Num 0)); [reflexivity|].
  cbn [orb]. destruct (to_boolean response); reflexivity.
Qed.

(** The page shows a report as soon as it holds an audit that has not
    failed; its error is one of the three codes. *)
Lemma settled_step (auditId : jsstring) (v : view) (e : event) :
  settled_view v ->
  exists v', step auditId v e = Normal v' /\ settled_view v'.
Proof.
  intros [Ha He].
  assert (F : forall silent r,
             exists v', fetchAudit auditId silent r v = Normal v'
                        /\ settled_view v').
  { intros silent r. unfold fetchAudit.
    destruct (negb (to_boolean (VStr auditId)));
      [eexists; split; [reflexivity | split; assumption]|].
    destruct r as [data | err].
    - eexists; split; [reflexivity|]. split; cbn [audit reportData error].
      + intros a Ea. inversion Ea; subst a.
        unfold Polling.in_progress. destruct (Api.status data); cbn; auto.
      + left; reflexivity.
    - destruct silent.
      + eexists; split; [reflexivity|]. split; cbn [audit reportData error].
        * exact Ha.
        * left; reflexivity.
      + destruct (classify_spec err) as (response & st & _ & _ & ->).
        cbn [bind]. eexists; split; [reflexivity|].
        split; cbn [audit reportData error]; [exact Ha|].
        right.
        destruct (strict_eq_number st (Num 404)); [left; reflexivity|].
        destruct (strict_eq_number st (Num 0) || negb (to_boolean response));
          [right; left | right; right]; reflexivity. }
  destruct e as [r | r]; cbn [step].
  - apply F.
  - destruct (Polling.pollingIntervalRef (poll v)); [apply F|].
    eexists; split; [reflexivity | split; assumption].
Qed.

Lemma settled_run_from (auditId : jsstring) (events : list event) (v : view) :
  settled_view v ->
  exists v', run_from auditId v events = Normal v' /\ settled_view v'.
Proof.
  revert v. induction events as [|e es IH]; intros v H; cbn [run_from].
  - exists v. split; [reflexivity | assumption].
  - destruct (settled_step auditId e H) as (v1 & -> & H1). cbn [bind].
    apply IH. exact H1.
Qed.

End ReportViewProperties.



(** X14.  The report page, after any history of loads and timer ticks
    (with any thrown values), is in a defined state, and it never shows
    the report-is-being-generated block: once it holds an audit that has
    not failed it also holds report figures, so such an audit is shown as
    a report, a pending or running one included.  Its error is none or one
    of the codes not_found, network and unknown. *)
Theorem report_page_never_generating (auditId : JS.jsstring)
    (events : list ReportView.event) :
  exists v,
    ReportView.run auditId events = JS.Normal v
    /\ ReportView.render v <> ReportView.Generating
    /\ (ReportView.error v = None
        \/ ReportView.error v = Some (JS.str "not_found")
        \/ ReportView.error v = Some (JS.str "network")
        \/ ReportView.error v = Some (JS.str "unknown"))
    /\ (forall a,
           ReportView.loading v = false ->
           ReportView.error v = None ->
           ReportView.audit v = Some a ->
           ReportView.render v
           = match Api.status a with
             | Api.failed => ReportView.AuditFailed
             | _ => ReportView.Report
             end).
Proof.
  destruct (@settled_run_from auditId events ReportView.initial)
    as (v & Hv & Ha & He).
  { split; [intros a Ea; discriminate Ea | left; reflexivity]. }
  exists v. split; [exact Hv|].
  assert (R : forall a, ReportView.audit v = Some a ->
              (if JS.string_eqb (Api.status_literal (Api.status a))
                    (JS.str "failed")
               then ReportView.AuditFailed
               else if ReportView.reportData v then ReportView.Report
                    else ReportView.Generating)
              = match Api.status a with
                | Api.failed => ReportView.AuditFailed
                | _ => ReportView.Report
                end).
  { intros a Ea. destruct (Ha a Ea) as [F | F].
    - rewrite F. reflexivity.
    - rewrite F. destruct (Api.status a); reflexivity. }
  split; [| split; [exact He|]].
  - unfold ReportView.render.
    destruct (ReportView.loading v); [discriminate|].
    destruct He as [-> | [-> | [-> | ->]]]; try (cbn; discriminate).
    destruct (ReportView.audit v) as [a|] eqn:Ea; [| discriminate].
    rewrite (R a eq_refl). destruct (Api.status a); discriminate.
  - intros a Hl Herr Ea. unfold ReportView.render.
    rewrite Hl, Herr, Ea. apply R. exact Ea.
Qed.

(** ** The environment configuration *)

Section EnvConfigProperties.
Import JS JSLib EnvConfig.

Lemma or_default_truthy (v : option jsstring) (d : jsstring) :
  to_boolean (VStr d) = true -> to_boolean (VStr (or_default v d)) = true.
Proof.
  intros Hd. unfold or_default. destruct v as [s|]; [| exact Hd].
  destruct (to_boolean (VStr s)) eqn:E; assumption.
Qed.

Lemma slice_last_spec (n : nat) (s : jsstring) :
  s = firstn (List.length s - n) s ++ slice_last n s
  /\ List.length (slice_last n s) = Nat.min n (List.length s).
Proof.
  unfold slice_last. split.
  - symmetry. apply firstn_skipn.
  - rewrite length_skipn. lia.
Qed.

End EnvConfigProperties.

(** X15.  [validateEnvConfig] never reports the API URL as not
    configured: the base URL falls back to the localhost default when the
    variable is unset or empty, so it is never empty.  The result is valid
    exactly when the base URL parses, and its only possible error is the
    bad-format one. *)
Theorem validateEnvConfig_never_not_configured
    (url_parses : JS.jsstring -> bool) (e : EnvConfig.env) :
  let result := EnvConfig.validateEnvConfig url_parses e in
  let url := EnvConfig.baseURL (EnvConfig.API_CONFIG e) in
  ~ In EnvConfig.msg_not_configured (EnvConfig.errors result)
  /\ url <> []
  /\ EnvConfig.valid result = url_parses url
  /\ EnvConfig.errors result
     = (if url_parses url then [] else [EnvConfig.msg_bad_format])
  /\ (EnvConfig.NEXT_PUBLIC_API_URL e = None
      \/ EnvConfig.NEXT_PUBLIC_API_URL e = Some [] ->
      url = EnvConfig.default_url)
  /\ (forall s, EnvConfig.NEXT_PUBLIC_API_URL e = Some s -> s <> [] -> url = s).
Proof.
  intros result url.
  assert (T : JS.to_boolean (JS.VStr url) = true).
  { apply or_default_truthy. reflexivity. }
  assert (E : EnvConfig.errors result
              = (if url_parses url then [] else [EnvConfig.msg_bad_format])).
  { subst result. unfold EnvConfig.validateEnvConfig. fold url.
    rewrite T. reflexivity. }
  split; [| split; [| split; [| split; [exact E | split]]]].
  - rewrite E. destruct (url_parses url); [intros []|].
    intros [H | []]. vm_compute in H. discriminate H.
  - intros H. rewrite H in T. discriminate T.
  - subst result. unfold EnvConfig.validateEnvConfig. fold url. rewrite T.
    cbn [negb EnvConfig.valid]. destruct (url_parses url); reflexivity.
  - subst url. unfold EnvConfig.API_CONFIG, EnvConfig.or_default.
    cbn [EnvConfig.baseURL]. intros [-> | ->]; reflexivity.
  - subst url. unfold EnvConfig.API_CONFIG, EnvConfig.or_default.
    cbn [EnvConfig.baseURL]. intros s -> Hs.
    destruct s; [contradiction | reflexivity].
Qed.

Lemma validateEnvConfig_never_not_configured_witness :
  EnvConfig.baseURL (EnvConfig.API_CONFIG Scenarios.env_unset)
  = EnvConfig.default_url.
Proof.
  apply (proj1 (proj2 (proj2 (proj2 (proj2
           (validateEnvConfig_never_not_configured
              (fun _ => true) Scenarios.env_unset)))))).
  left. reflexivity.
Defined.

(** X16.  [logConfig] prints in development only, and never more than the
    last 4 code units of the API key: a configured key is printed as three
    asterisks followed by its last 4 units, at most 7 units in all, the
    units before them hidden.  A key of at most 4 units is therefore
    printed whole. *)
Theorem logConfig_masks_key (e : EnvConfig.env) :
  (EnvConfig.logConfig e = None <-> EnvConfig.isDevelopment e = false)
  /\ (forall l,
         EnvConfig.logConfig e = Some l ->
         let key := EnvConfig.apiKey (EnvConfig.API_CONFIG e) in
         EnvConfig.API_URL l = EnvConfig.baseURL (EnvConfig.API_CONFIG e)
         /\ (key = [] -> EnvConfig.API_KEY l = EnvConfig.key_not_configured)
         /\ (key <> [] ->
             exists hidden shown,
               key = hidden ++ shown
               /\ List.length shown = Nat.min 4 (List.length key)
               /\ EnvConfig.API_KEY l = JS.str "***" ++ shown
               /\ List.length (EnvConfig.API_KEY l) <= 7)
         /\ (key <> [] -> List.length key <= 4 ->
             EnvConfig.API_KEY l = JS.str "***" ++ key)).
Proof.
  unfold EnvConfig.logConfig. split.
  - destruct (EnvConfig.isDevelopment e); split; intros H;
      try reflexivity; discriminate H.
  - intros l. destruct (EnvConfig.isDevelopment e); [| discriminate].
    intros H.
    assert (E := f_equal (fun o => match o with Some x => x | None => l end) H).
    cbv beta iota in E. subst l. clear H.
    generalize (EnvConfig.apiKey (EnvConfig.API_CONFIG e)). intros key.
    cbn [EnvConfig.API_URL EnvConfig.API_KEY].
    split; [reflexivity|]. split; [| split].
    + intros ->. reflexivity.
    + intros Hk.
      assert (T : JS.to_boolean (JS.VStr key) = true)
        by (destruct key; [contradiction | reflexivity]).
      rewrite T. destruct (slice_last_spec 4 key) as [Hs Hn].
      exists (firstn (List.length key - 4) key), (JSLib.slice_last 4 key).
      split; [exact Hs|]. split; [exact Hn|]. split; [reflexivity|].
      rewrite length_app, Hn. change (List.length (JS.str "***")) with 3. lia.
    + intros Hk Hlen.
      assert (T : JS.to_boolean (JS.VStr key) = true)
        by (destruct key; [contradiction | reflexivity]).
      rewrite T. unfold JSLib.slice_last.
      replace (List.length key - 4) with 0 by lia. reflexivity.
Qed.

(** ** The score ring of [GeoScoreOverview] *)

Section ScoreRingProperties.
Import JS JSLib Scoring GeoScoreOverview.
Local Open Scope Q_scope.



End ScoreRingProperties.


(** ** The create-audit form: what it lets through *)

Section TrimProperties.
Import JS.

Lemma trim_start_length (s : jsstring) :
  List.length (trim_start s) <= List.length s.
Proof.
  induction s as [|c r IH]; simpl; [lia|].
  destruct (is_white_space c); simpl; lia.
Qed.

(** [trim_start] leaves a string alone exactly when it does not start
    with white space. *)
Lemma trim_start_fixed (s : jsstring) :
  trim_start s = s
  <-> match s with [] => True | c :: _ => is_white_space c = false end.
Proof.
  destruct s as [|c r]; simpl; [tauto|].
  destruct (is_white_space c) eqn:E; split; intros H;
    try reflexivity; try discriminate H.
  pose proof (trim_start_length r) as L. rewrite H in L. simpl in L. lia.
Qed.

Lemma trim_start_idempotent (s : jsstring) :
  trim_start (trim_start s) = trim_start s.
Proof.
  induction s as [|c r IH]; simpl; [reflexivity|].
  destruct (is_white_space c) eqn:E; [exact IH|].
  simpl. rewrite E. reflexivity.
Qed.

(** What [trim_start] drops is white space. *)
Lemma trim_start_dropped (s : jsstring) :
  exists w, s = w ++ trim_start s
            /\ Forall (fun c => is_white_space c = true) w.
Proof.
  induction s as [|c r (w & Hw & Hall)]; simpl.
  - exists []. split; [reflexivity | constructor].
  - destruct (is_white_space c) eqn:E.
    + exists (c :: w). split; [simpl; congruence | constructor; assumption].
    + exists []. split; [reflexivity | constructor].
Qed.

Lemma trim_start_prefix (p q : jsstring) :
  trim_start (p ++ q) = p ++ q -> p <> [] -> trim_start p = p.
Proof.
  intros H Hp. destruct p as [|c r]; [contradiction|].
  apply trim_start_fixed. apply trim_start_fixed in H. exact H.
Qed.

(** The two ends of a trimmed string. *)
Lemma trim_ends (s : jsstring) :
  trim_start (trim s) = trim s /\ trim_start (rev (trim s)) = rev (trim s).
Proof.
  unfold trim, trim_end.
  set (t := trim_start s). set (u := trim_start (rev t)).
  split.
  - destruct (trim_start_dropped (rev t)) as (w & Hw & _). fold u in Hw.
    assert (Et : t = rev u ++ rev w).
    { rewrite <- rev_app_distr, <- Hw, rev_involutive. reflexivity. }
    destruct (rev u) as [|c r] eqn:Eu; [reflexivity|].
    apply (@trim_start_prefix (c :: r) (rev w)).
    + rewrite <- Et. apply trim_start_idempotent.
    + discriminate.
  - rewrite rev_involutive. apply trim_start_idempotent.
Qed.

Lemma trim_idempotent (s : jsstring) : trim (trim s) = trim s.
Proof.
  destruct (trim_ends s) as [H1 H2].
  unfold trim at 1. unfold trim_end. rewrite H1, H2.
  apply rev_involutive.
Qed.

Lemma trim_In (s : jsstring) (c : code_unit) : In c (trim s) -> In c s.
Proof.
  unfold trim, trim_end. intros H. apply in_rev in H.
  destruct (trim_start_dropped (rev (trim_start s))) as (w & Hw & _).
  assert (H' : In c (rev (trim_start s))).
  { rewrite Hw. apply in_or_app. right. exact H. }
  apply in_rev in H'.
  destruct (trim_start_dropped s) as (w' & Hw' & _).
  rewrite Hw'. apply in_or_app. right. exact H'.
Qed.

Lemma trim_white_space (s : jsstring) :
  Forall (fun c => is_white_space c = true) s -> trim s = [].
Proof.
  intros H. unfold trim.
  assert (E : trim_start s = []).
  { induction H as [|c r Hc Hr IH]; simpl; [reflexivity|].
    rewrite Hc. exact IH. }
  rewrite E. reflexivity.
Qed.

Lemma split_without_separator (sep : code_unit) (s : jsstring) :
  ~ In sep s -> split sep s = [s].
Proof.
  induction s as [|c r IH]; intros H; simpl; [reflexivity|].
  destruct (N.eqb_spec c sep) as [E|E].
  - exfalso. apply H. left. exact E.
  - rewrite IH; [reflexivity|]. intros Hin. apply H. right. exact Hin.
Qed.

Lemma split_pieces (sep : code_unit) (s piece : jsstring) :
  In piece (split sep s) -> ~ In sep piece.
Proof.
  revert piece. induction s as [|c r IH]; intros piece; simpl.
  - intros [<- | []]. intros [].
  - destruct (N.eqb_spec c sep) as [E|E].
    + intros [<- | H]; [intros [] | apply IH; exact H].
    + destruct (split sep r) as [|p ps] eqn:Es.
      * intros [<- | []]. intros [H | []]. contradiction.
      * intros [<- | H].
        -- intros [H | H]; [contradiction|].
           apply (IH p); [left; reflexivity | exact H].
        -- apply IH. right. exact H.
Qed.

End TrimProperties.

Section FormProperties.
Import JS NewAuditPage.

(** Every tag is a trimmed, non-empty text. *)
Lemma tags_step (st : TagInput) (e : event) :
  Forall (fun k => k <> [] /\ trim k = k) (coreProductKeywords st) ->
  Forall (fun k => k <> [] /\ trim k = k) (coreProductKeywords (step st e)).
Proof.
  intros H. destruct e as [key|text|index]; cbn [step].
  - unfold handleCoreProductKeywordKeyDown.
    destruct (string_eqb key (str "Enter") || string_eqb key (str ",")).
    + destruct (to_boolean (VStr (trim (coreProductKeywordInput st)))) eqn:T;
        cbn [andb]; [| exact H].
      destruct (negb (includes (coreProductKeywords st)
                        (trim (coreProductKeywordInput st)))); [| exact H].
      destruct (List.length (coreProductKeywords st) <? 3); [| exact H].
      cbn [coreProductKeywords]. apply Forall_app. split; [exact H|].
      constructor; [| constructor]. split.
      * intros E. rewrite E in T. discriminate T.
      * apply trim_idempotent.
    + destruct (string_eqb key (str "Backspace")
                && string_eqb (coreProductKeywordInput st) []
                && (0 <? List.length (coreProductKeywords st))); [| exact H].
      cbn [coreProductKeywords]. rewrite Forall_forall in *.
      intros k Hk. apply H. unfold slice_0_minus_1 in Hk.
      apply removelast_In in Hk. exact Hk.
  - exact H.
  - cbn [removeCoreProductKeyword coreProductKeywords].
    rewrite Forall_forall in *. intros k Hk. apply H.
    apply filter_index_from_In in Hk. exact Hk.
Qed.

Lemma tags_run (events : list event) :
  Forall (fun k => k <> [] /\ trim k = k) (coreProductKeywords (run events)).
Proof.
  unfold run.
  assert (G : forall st,
            Forall (fun k => k <> [] /\ trim k = k) (coreProductKeywords st) ->
            Forall (fun k => k <> [] /\ trim k = k)
                   (coreProductKeywords (fold_left step events st))).
  { induction events as [|e es IH]; intros st H; simpl; [exact H|].
    apply IH. apply tags_step. exact H. }
  apply G. constructor.
Qed.

Lemma element_issues_none (l : list jsstring) :
  Forall (fun k => k <> [] /\ trim k = k) l ->
  flat_map (Zod.string_issues (Zod.element core_product_keywords_schema)) l = [].
Proof.
  induction 1 as [|k ks [Hk _] Hks IH]; [reflexivity|].
  cbn [flat_map]. rewrite IH.
  destruct k; [contradiction | reflexivity].
Qed.

End FormProperties.

(** X18.  Whatever the user does to the tag input, every tag it holds is a
    non-empty text without white space at either end.  So of the three
    checks the form schema makes on the tag list, two can never fail: the
    list never holds more than 3 tags nor an empty one, and the only issue
    the schema can raise for it is the missing-keyword one, raised exactly
    when the list is empty. *)
Theorem tag_list_only_fails_when_empty (events : list NewAuditPage.event) :
  let tags := NewAuditPage.coreProductKeywords (NewAuditPage.run events) in
  Forall (fun k => k <> [] /\ JS.trim k = k) tags
  /\ Zod.array_issues NewAuditPage.core_product_keywords_schema tags
     = (match tags with
        | [] => [NewAuditPage.msg_core_keywords_none]
        | _ :: _ => []
        end)
  /\ (NewAuditPage.core_product_keywords_accepted tags = true <-> tags <> []).
Proof.
  intros tags.
  pose proof (tags_run events) as Ht. fold tags in Ht.
  assert (L : List.length tags <= 3).
  { subst tags. unfold NewAuditPage.run. apply fold_step_preserves.
    simpl. split; [lia | constructor]. }
  assert (E : Zod.array_issues NewAuditPage.core_product_keywords_schema tags
              = match tags with
                | [] => [NewAuditPage.msg_core_keywords_none]
                | _ :: _ => []
                end).
  { unfold Zod.array_issues. rewrite (element_issues_none Ht).
    cbn [NewAuditPage.core_product_keywords_schema Zod.min_length
         Zod.max_length fst snd].
    destruct (Nat.ltb_spec 3 (List.length tags)) as [Hi|Hi]; [lia|].
    destruct tags as [|k ks]; reflexivity. }
  split; [exact Ht|]. split; [exact E|].
  unfold NewAuditPage.core_product_keywords_accepted. rewrite E.
  destruct tags; simpl; split; congruence.
Qed.

(** X19.  The request the form submits is clean: its brand name and every
    keyword are trimmed (no white space at either end), and when the
    keywords box holds at least one non-blank entry every keyword is
    non-empty, contains no comma and is the trimmed form of one of the
    comma-separated pieces of the box. *)
Theorem request_keywords_clean (data : NewAuditPage.AuditFormData) :
  let request := NewAuditPage.requestData data in
  JS.trim (Api.req_brand_name request) = Api.req_brand_name request
  /\ Api.req_target_brand request = Api.req_brand_name request
  /\ (forall k, In k (Api.req_keywords request) -> JS.trim k = k)
  /\ (NewAuditPage.keywordArray data <> [] ->
      forall k, In k (Api.req_keywords request) ->
                k <> [] /\ ~ In NewAuditPage.comma k
                /\ exists piece,
                     In piece (JS.split NewAuditPage.comma
                                 (NewAuditPage.keywords data))
                     /\ k = JS.trim piece).
Proof.
  intros request. subst request. unfold NewAuditPage.requestData.
  cbn [Api.req_brand_name Api.req_target_brand Api.req_keywords].
  split; [apply trim_idempotent|]. split; [reflexivity|].
  destruct (NewAuditPage.keywordArray data) as [|k0 ks] eqn:E.
  - split; [| intros H; contradiction].
    intros k [<- | []]. apply trim_idempotent.
  - change (0 <? List.length (k0 :: ks)) with true. cbv iota.
    assert (P : forall k, In k (k0 :: ks) ->
                k <> []
                /\ exists piece,
                     In piece (JS.split NewAuditPage.comma
                                 (NewAuditPage.keywords data))
                     /\ k = JS.trim piece).
    { intros k Hk. rewrite <- E in Hk.
      apply keywordArray_entries. exact Hk. }
    split.
    + intros k Hk. destruct (P k Hk) as (_ & piece & _ & ->).
      apply trim_idempotent.
    + intros _ k Hk. destruct (P k Hk) as (Hne & piece & Hp & ->).
      split; [exact Hne|]. split.
      * intros Hin. apply trim_In in Hin.
        exact (split_pieces _ _ _ Hp Hin).
      * exists piece. split; [exact Hp | reflexivity].
Qed.

Lemma request_keywords_clean_witness :
  JS.str "k2" <> []
  /\ ~ In NewAuditPage.comma (JS.str "k2")
  /\ exists piece,
       In piece (JS.split NewAuditPage.comma
                   (NewAuditPage.keywords Samples.form_21_keywords))
       /\ JS.str "k2" = JS.trim piece.
Proof.
  apply (proj2 (proj2 (proj2 (request_keywords_clean Samples.form_21_keywords)))).
  - vm_compute. discriminate.
  - vm_compute. right. left. reflexivity.
Defined.

(** X20.  The form checks the brand name before it trims it: a brand name
    made of white space only, of 1 to 100 code units, passes the check of
    the schema, and the request is submitted with an empty brand name and
    an empty target brand.  If the keywords box too holds white space
    only, it passes as well, and the request carries the empty string as
    its single keyword. *)
Theorem blank_brand_name_submitted (data : NewAuditPage.AuditFormData) :
  Forall (fun c => JS.is_white_space c = true) (NewAuditPage.brand_name data) ->
  1 <= List.length (NewAuditPage.brand_name data) <= 100 ->
  let request := NewAuditPage.requestData data in
  NewAuditPage.brand_name_accepted (NewAuditPage.brand_name data) = true
  /\ Api.req_brand_name request = []
  /\ Api.req_target_brand request = []
  /\ (Forall (fun c => JS.is_white_space c = true) (NewAuditPage.keywords data) ->
      NewAuditPage.keywords data <> [] ->
      NewAuditPage.keywords_accepted (NewAuditPage.keywords data) = true
      /\ Api.req_keywords request = [[]]).
Proof.
  intros Hws [Lo Hi] request. subst request. unfold NewAuditPage.requestData.
  cbn [Api.req_brand_name Api.req_target_brand Api.req_keywords].
  rewrite (trim_white_space Hws).
  split; [| split; [reflexivity | split; [reflexivity|]]].
  - unfold NewAuditPage.brand_name_accepted, NewAuditPage.brand_name_schema,
      Zod.string_issues.
    cbn [flat_map Zod.run_check].
    destruct (Nat.ltb_spec (List.length (NewAuditPage.brand_name data)) 1);
      [lia|].
    destruct (Nat.ltb_spec 100 (List.length (NewAuditPage.brand_name data)));
      [lia|].
    reflexivity.
  - intros Hk Hne. split.
    + unfold NewAuditPage.keywords_accepted, NewAuditPage.keywords_schema,
        Zod.string_issues.
      cbn [flat_map Zod.run_check].
      destruct (NewAuditPage.keywords data); [contradiction | reflexivity].
    + assert (E : NewAuditPage.keywordArray data = []).
      { unfold NewAuditPage.keywordArray.
        rewrite split_without_separator.
        - cbn [map]. rewrite (trim_white_space Hk). reflexivity.
        - intros Hin. rewrite Forall_forall in Hk. apply Hk in Hin.
          discriminate Hin. }
      rewrite E. reflexivity.
Qed.

Lemma blank_brand_name_submitted_witness :
  NewAuditPage.brand_name_accepted (JS.str " ") = true
  /\ Api.req_brand_name (NewAuditPage.requestData Scenarios.form_blank) = []
  /\ Api.req_keywords (NewAuditPage.requestData Scenarios.form_blank) = [[]].
Proof.
  assert (W : Forall (fun c => JS.is_white_space c = true) (JS.str " "))
    by (repeat constructor).
  assert (L : 1 <= List.length (JS.str " ") <= 100) by (cbn; lia).
  destruct (@blank_brand_name_submitted Scenarios.form_blank W L)
    as (A & B & _ & C).
  destruct (C W) as [_ D]; [discriminate|].
  split; [exact A|]. split; [exact B | exact D].
Defined.
